(** * Elroy assistant: the send procedure and the conversation state

    A shallow embedding of [src/components/SmartElroyAssistant.tsx]: the
    React state cells of the component, the handlers that update them
    ([appendFiles], [removePendingFile], [clearChat], [sendMessage]) and the
    payload that [sendMessage] hands to [fetch].

    Conventions.
    - A JavaScript string is the list of its UTF-16 code units, so that
      [length], [slice], [trim] and [startsWith] count what the engine counts.
    - Whatever the component obtains from outside (file contents, the
      outcome of [fetch], [uid()], [Date.now()]) is read from an [Env].
    - [sendMessage] is written in a small state-and-exception monad over
      the [World]: the state cells, the log of issued requests and the
      number of oracle draws made so far. *)

From Stdlib Require Import ZArith NArith String Ascii List Bool Lia.
From Stdlib Require Import DecimalString DecimalZ.
From stdpp Require Import base tactics option list.

#[local] Open Scope Z_scope.
#[local] Set Warnings "-register-all".

(** ** JavaScript strings *)

Module Js.

Abbreviation jsstring := (list N).

(** A literal of the source, which are all ASCII. *)
Definition lit (s : string) : jsstring :=
  List.map N_of_ascii (list_ascii_of_string s).

Definition nl : jsstring := [10%N].
Definition dq : jsstring := [34%N].

(** [a === b] on strings. *)
Definition streq (a b : jsstring) : bool := bool_decide (a = b).

(** [s.startsWith(p)] *)
Fixpoint startsWith (p s : jsstring) : bool :=
  match p, s with
  | [], _ => true
  | _ :: _, [] => false
  | a :: p', b :: s' => (a =? b)%N && startsWith p' s'
  end.

(** [s.includes(p)] *)
Fixpoint includes (p s : jsstring) : bool :=
  startsWith p s ||
  match s with
  | [] => false
  | _ :: s' => includes p s'
  end.

(** The relative index of [slice]: negative counts from the end, and the
    result is clamped to [0 .. len]. *)
Definition relative_index (len k : Z) : Z :=
  if k <? 0 then Z.max (len + k) 0 else Z.min k len.

(** [l.slice(start, end)] on strings and arrays alike; [end] may be omitted. *)
Definition slice {A} (l : list A) (start : Z) (stop : option Z) : list A :=
  let len := Z.of_nat (length l) in
  let from := relative_index len start in
  let to := match stop with
            | None => len
            | Some e => relative_index len e
            end in
  take (Z.to_nat (to - from)) (drop (Z.to_nat from) l).

(** WhiteSpace and LineTerminator code units, the ones [trim] strips. *)
Definition is_space (c : N) : bool :=
  ((9 <=? c) && (c <=? 13) || (c =? 32) || (c =? 160) || (c =? 5760)
   || (8192 <=? c) && (c <=? 8202) || (c =? 8232) || (c =? 8233)
   || (c =? 8239) || (c =? 8287) || (c =? 12288) || (c =? 65279))%N.

Fixpoint trimStart (s : jsstring) : jsstring :=
  match s with
  | [] => []
  | c :: s' => if is_space c then trimStart s' else s
  end.

Definition trimEnd (s : jsstring) : jsstring := rev (trimStart (rev s)).

(** [s.trim()] *)
Definition trim (s : jsstring) : jsstring := trimEnd (trimStart s).

(** [`${n}`] for an integer [n]. *)
Definition of_int (n : Z) : jsstring :=
  lit (NilZero.string_of_int (Z.to_int n)).

(** Errors: every value thrown on the send path is an error object. *)
Record Error := { name : jsstring; message : jsstring }.

(** [new Error(msg)] *)
Definition new_Error (msg : jsstring) : Error :=
  {| name := lit "Error"; message := msg |}.

(** [String(err)], that is [Error.prototype.toString]. *)
Definition toString (e : Error) : jsstring :=
  match name e, message e with
  | [], m => m
  | n, [] => n
  | n, m => n ++ lit ": " ++ m
  end.

(** JSON values, as [resp.json()] delivers them. A number is kept as its
    binary64 bit pattern; the component never computes with one. An
    object lists its members in source order, and a later member
    overrides an earlier one of the same key. *)
Inductive json :=
| JNull
| JBool (b : bool)
| JNum (bits : N)
| JStr (s : jsstring)
| JArr (xs : list json)
| JObj (members : list (jsstring * json)).

(** A JavaScript value on the reply path: [None] is [undefined]. *)
Abbreviation value := (option json).

Fixpoint member (k : jsstring) (ms : list (jsstring * json)) : value :=
  match ms with
  | [] => None
  | (k', v) :: rest =>
      match member k rest with
      | Some w => Some w
      | None => if streq k' k then Some v else None
      end
  end.

(** [v.k] for a non-nullish [v] and a key [k] that no prototype defines
    (as is the case for choices, message and content): only an object
    can have it. *)
Definition prop (k : jsstring) (v : json) : value :=
  match v with
  | JObj ms => member k ms
  | _ => None
  end.

(** [v[0]] for a non-nullish [v]. *)
Definition index0 (v : json) : value :=
  match v with
  | JArr xs => head xs
  | JStr (c :: _) => Some (JStr [c])
  | JObj ms => member (lit "0") ms
  | _ => None
  end.

(** [v?.access]: [undefined] when [v] is [null] or [undefined]. *)
Definition opt_chain (v : value) (access : json -> value) : value :=
  match v with
  | None | Some JNull => None
  | Some x => access x
  end.

(** [v ?? d] *)
Definition nullish (v : value) (d : json) : json :=
  match v with
  | None | Some JNull => d
  | Some x => x
  end.

End Js.

(** ** The data of the component *)

Import Js.

Inductive Role := user | assistant.

(** [text] is declared a string. The reply path stores in it whatever
    JSON value the service put in [content], because the cast on
    [resp.json()] checks nothing; hence a [json] here. *)
Record ChatMessage := {
  id : jsstring;
  role : Role;
  text : json;
  ts : Z;
}.

(** A browser [File]: its metadata; the bytes are read through the [Env]. *)
Record File := {
  file_name : jsstring;
  file_type : jsstring;
  file_size : Z;
  lastModified : Z;
}.

Abbreviation PendingFile := File.

Inductive OpenRouterContentBlock :=
| text_block (t : json)
| image_url_block (url : jsstring)
| file_block (filename file_data : jsstring).

Inductive PayloadRole := system_role | user_role | assistant_role.

Record OpenRouterMessage := {
  msg_role : PayloadRole;
  msg_content : list OpenRouterContentBlock;
}.

Inductive Tone := neutral | friendly | formal.
Inductive Depth := concise | balanced | detailed.
Inductive CitationMode := cite_auto | cite_always | cite_never.

Definition Tone_str (t : Tone) : jsstring :=
  match t with
  | neutral => lit "neutral"
  | friendly => lit "friendly"
  | formal => lit "formal"
  end.

Definition Depth_str (d : Depth) : jsstring :=
  match d with
  | concise => lit "concise"
  | balanced => lit "balanced"
  | detailed => lit "detailed"
  end.

Definition CitationMode_str (c : CitationMode) : jsstring :=
  match c with
  | cite_auto => lit "auto"
  | cite_always => lit "always"
  | cite_never => lit "never"
  end.

(** The [useState] cells of [SmartElroyAssistant]. *)
Record State := {
  messages : list ChatMessage;
  input : jsstring;
  pendingFiles : list PendingFile;
  isSending : bool;
  showAbout : bool;
  showSettings : bool;
  systemPrompt : jsstring;
  tone : Tone;
  depth : Depth;
  citationMode : CitationMode;
  extractTables : bool;
  describeImages : bool;
  isTouch : bool;
}.

Definition setMessages (f : list ChatMessage -> list ChatMessage) (s : State) : State :=
  {| messages := f (messages s); input := input s;
     pendingFiles := pendingFiles s; isSending := isSending s;
     showAbout := showAbout s; showSettings := showSettings s;
     systemPrompt := systemPrompt s; tone := tone s; depth := depth s;
     citationMode := citationMode s; extractTables := extractTables s;
     describeImages := describeImages s; isTouch := isTouch s |}.

Definition setInput (v : jsstring) (s : State) : State :=
  {| messages := messages s; input := v;
     pendingFiles := pendingFiles s; isSending := isSending s;
     showAbout := showAbout s; showSettings := showSettings s;
     systemPrompt := systemPrompt s; tone := tone s; depth := depth s;
     citationMode := citationMode s; extractTables := extractTables s;
     describeImages := describeImages s; isTouch := isTouch s |}.

Definition setPendingFiles (f : list PendingFile -> list PendingFile) (s : State) : State :=
  {| messages := messages s; input := input s;
     pendingFiles := f (pendingFiles s); isSending := isSending s;
     showAbout := showAbout s; showSettings := showSettings s;
     systemPrompt := systemPrompt s; tone := tone s; depth := depth s;
     citationMode := citationMode s; extractTables := extractTables s;
     describeImages := describeImages s; isTouch := isTouch s |}.

Definition setIsSending (b : bool) (s : State) : State :=
  {| messages := messages s; input := input s;
     pendingFiles := pendingFiles s; isSending := b;
     showAbout := showAbout s; showSettings := showSettings s;
     systemPrompt := systemPrompt s; tone := tone s; depth := depth s;
     citationMode := citationMode s; extractTables := extractTables s;
     describeImages := describeImages s; isTouch := isTouch s |}.

Definition setSystemPrompt (v : jsstring) (s : State) : State :=
  {| messages := messages s; input := input s;
     pendingFiles := pendingFiles s; isSending := isSending s;
     showAbout := showAbout s; showSettings := showSettings s;
     systemPrompt := v; tone := tone s; depth := depth s;
     citationMode := citationMode s; extractTables := extractTables s;
     describeImages := describeImages s; isTouch := isTouch s |}.

Definition setTone (v : Tone) (s : State) : State :=
  {| messages := messages s; input := input s;
     pendingFiles := pendingFiles s; isSending := isSending s;
     showAbout := showAbout s; showSettings := showSettings s;
     systemPrompt := systemPrompt s; tone := v; depth := depth s;
     citationMode := citationMode s; extractTables := extractTables s;
     describeImages := describeImages s; isTouch := isTouch s |}.

Definition setDepth (v : Depth) (s : State) : State :=
  {| messages := messages s; input := input s;
     pendingFiles := pendingFiles s; isSending := isSending s;
     showAbout := showAbout s; showSettings := showSettings s;
     systemPrompt := systemPrompt s; tone := tone s; depth := v;
     citationMode := citationMode s; extractTables := extractTables s;
     describeImages := describeImages s; isTouch := isTouch s |}.

Definition setCitationMode (v : CitationMode) (s : State) : State :=
  {| messages := messages s; input := input s;
     pendingFiles := pendingFiles s; isSending := isSending s;
     showAbout := showAbout s; showSettings := showSettings s;
     systemPrompt := systemPrompt s; tone := tone s; depth := depth s;
     citationMode := v; extractTables := extractTables s;
     describeImages := describeImages s; isTouch := isTouch s |}.

Definition setExtractTables (v : bool) (s : State) : State :=
  {| messages := messages s; input := input s;
     pendingFiles := pendingFiles s; isSending := isSending s;
     showAbout := showAbout s; showSettings := showSettings s;
     systemPrompt := systemPrompt s; tone := tone s; depth := depth s;
     citationMode := citationMode s; extractTables := v;
     describeImages := describeImages s; isTouch := isTouch s |}.

Definition setDescribeImages (v : bool) (s : State) : State :=
  {| messages := messages s; input := input s;
     pendingFiles := pendingFiles s; isSending := isSending s;
     showAbout := showAbout s; showSettings := showSettings s;
     systemPrompt := systemPrompt s; tone := tone s; depth := depth s;
     citationMode := citationMode s; extractTables := extractTables s;
     describeImages := v; isTouch := isTouch s |}.

Definition setShowAbout (v : bool) (s : State) : State :=
  {| messages := messages s; input := input s;
     pendingFiles := pendingFiles s; isSending := isSending s;
     showAbout := v; showSettings := showSettings s;
     systemPrompt := systemPrompt s; tone := tone s; depth := depth s;
     citationMode := citationMode s; extractTables := extractTables s;
     describeImages := describeImages s; isTouch := isTouch s |}.

Definition setShowSettings (v : bool) (s : State) : State :=
  {| messages := messages s; input := input s;
     pendingFiles := pendingFiles s; isSending := isSending s;
     showAbout := showAbout s; showSettings := v;
     systemPrompt := systemPrompt s; tone := tone s; depth := depth s;
     citationMode := citationMode s; extractTables := extractTables s;
     describeImages := describeImages s; isTouch := isTouch s |}.

(** ** Handlers that do not leave the component *)

(** The media types [appendFiles] lets through. *)
Definition accepted (f : File) : bool :=
  let isPdf := streq (file_type f) (lit "application/pdf") in
  let isText := streq (file_type f) (lit "text/plain") in
  let isImage := startsWith (lit "image/") (file_type f) in
  isPdf || isText || isImage.

Definition appendFiles (files : list File) (s : State) : State :=
  let valid := List.filter accepted files in
  setPendingFiles (fun prev => prev ++ valid) s.

(** [onDrop] and [onFileChange] call [appendFiles] when the file list
    is not empty. *)
Definition onFiles (files : list File) (s : State) : State :=
  match files with
  | [] => s
  | _ => appendFiles files s
  end.

Definition removePendingFile (n : jsstring) (s : State) : State :=
  setPendingFiles (List.filter (fun f => negb (streq (file_name f) n))) s.

Definition clearChat (s : State) : State := setMessages (fun _ => []) s.

(** ** The outside world and the send monad *)

(** What is handed to [fetch]. The body is kept as the object given to
    [JSON.stringify]. *)
Record Request := {
  url : jsstring;
  method : jsstring;
  headers : list (jsstring * jsstring);
  body_model : jsstring;
  body_messages : list OpenRouterMessage;
}.

(** A [Response]: its status and what [resp.text()] and [resp.json()]
    settle to when called. *)
Record Response := {
  status : Z;
  body_text : Error + jsstring;
  body_json : Error + json;
}.

(** [resp.ok]: the status is in the range 200-299. *)
Definition ok (r : Response) : bool := (200 <=? status r) && (status r <=? 299).

Record Env := {
  (** the value of the n-th draw, when it is a call of [uid()] *)
  uid_draw : nat -> jsstring;
  (** the value of the n-th draw, when it is a call of [Date.now()] *)
  now_draw : nat -> Z;
  (** [reader.readAsDataURL(f)]: [None] when the reader fires [onerror] *)
  dataURL_of : File -> option jsstring;
  (** [reader.readAsText(f)]: [None] when the reader fires [onerror] *)
  text_of : File -> option jsstring;
  (** how [fetch] settles: rejected (no connection, or aborted by the
      120 s timer) or resolved with a response of any status *)
  fetch_outcome : Request -> Error + Response;
}.

Record World := {
  store : State;
  requests : list Request;
  draws : nat;
}.

Definition M (A : Type) : Type := Env -> World -> (Error + A) * World.

#[export] Instance M_ret : MRet M := fun A a _ w => (inr a, w).

#[export] Instance M_bind : MBind M := fun A B k m e w =>
  match m e w with
  | (inl err, w') => (inl err, w')
  | (inr a, w') => k a e w'
  end.

Definition throw {A} (err : Error) : M A := fun _ w => (inl err, w).

(** [try { body } catch (err) { handler } finally { final }] *)
Definition try_catch_finally {A} (body : M A) (handler : Error -> M A)
    (final : M unit) : M A := fun e w =>
  let '(r, w1) :=
    match body e w with
    | (inl err, w') => handler err e w'
    | (inr a, w') => (inr a, w')
    end in
  match final e w1 with
  | (inl err, w2) => (inl err, w2)
  | (inr _, w2) => (r, w2)
  end.

(** A state setter applied to the live cells. *)
Definition set (f : State -> State) : M unit := fun _ w =>
  (inr tt, {| store := f (store w); requests := requests w; draws := draws w |}).

Definition draw {A} (oracle : Env -> nat -> A) : M A := fun e w =>
  (inr (oracle e (draws w)),
   {| store := store w; requests := requests w; draws := S (draws w) |}).

Definition uid : M jsstring := draw uid_draw.
Definition Date_now : M Z := draw now_draw.

Definition readFileAsDataURL (file : File) : M jsstring := fun e w =>
  match dataURL_of e file with
  | None => (inl (new_Error (lit "File read error")), w)
  | Some result => (inr result, w)
  end.

Definition readFileAsText (file : File) : M jsstring := fun e w =>
  match text_of e file with
  | None => (inl (new_Error (lit "File read error")), w)
  | Some result => (inr result, w)
  end.

(** [await fetch(...)]: the request goes out, then the call settles. *)
Definition fetch (req : Request) : M Response := fun e w =>
  (fetch_outcome e req,
   {| store := store w; requests := requests w ++ [req]; draws := draws w |}).

(** [await resp.text()], [await resp.json()] *)
Definition resp_text (r : Response) : M jsstring := fun _ w => (body_text r, w).
Definition resp_json (r : Response) : M json := fun _ w => (body_json r, w).

(** ** sendMessage *)

(** [parts.join(sep)] *)
Fixpoint join (sep : jsstring) (parts : list jsstring) : jsstring :=
  match parts with
  | [] => []
  | [p] => p
  | p :: rest => p ++ sep ++ join sep rest
  end.

Definition bool_str (b : bool) : jsstring :=
  if b then lit "true" else lit "false".

Definition controlDirectives (c : State) : jsstring :=
  join (lit " | ")
    [ lit "Tone: " ++ Tone_str (tone c);
      lit "Depth: " ++ Depth_str (depth c);
      lit "Citations: " ++ CitationMode_str (citationMode c);
      lit "ExtractTables: " ++ bool_str (extractTables c);
      lit "DescribeImages: " ++ bool_str (describeImages c) ].

(** The first block of the current turn when the user typed something. *)
Definition request_text (c : State) (trimmed : jsstring) : jsstring :=
  lit "User request:" ++ nl ++ trimmed ++ nl ++ nl ++
  lit "Assistant controls: " ++ controlDirectives c ++ nl ++
  lit "Instructions:" ++ nl ++
  lit "- If attachments contain tables, extract as Markdown tables and summarize insights." ++ nl ++
  lit "- If images/screenshots are attached, perform OCR-style reading and reconstruct tables when possible." ++ nl ++
  lit "- Ensure originality; avoid AI-sounding phrasing; cite sources if derived from attachments." ++ nl.

(** The first block of the current turn when only attachments are sent. *)
Definition attachments_only_text (c : State) : jsstring :=
  lit "User sent attachments without a message." ++ nl ++
  lit "Assistant controls: " ++ controlDirectives c ++ nl ++
  lit "Please extract, summarize, and provide structured insights. If tables are present, render them as Markdown tables." ++ nl.

Definition image_note (f : File) : jsstring :=
  lit "Attachment: Image " ++ dq ++ file_name f ++ dq ++
  lit ". If text or tables exist, extract them.".

Definition pdf_note (f : File) : jsstring :=
  lit "Attachment: PDF " ++ dq ++ file_name f ++ dq ++
  lit ". Read all pages. Extract tables and key sections.".

Definition begin_marker (f : File) : jsstring :=
  lit "----- BEGIN " ++ file_name f ++ lit " -----" ++ nl.

Definition end_marker (f : File) : jsstring :=
  nl ++ lit "----- END " ++ file_name f ++ lit " -----".

Definition text_file_block (f : File) (content : jsstring) : jsstring :=
  lit "Attachment: Text file " ++ dq ++ file_name f ++ dq ++
  lit ". Content below:" ++ nl ++
  begin_marker f ++
  slice content 0 (Some 200000) ++
  end_marker f.

(** The body of [for (const f of pendingFiles)]: what one file pushes. *)
Definition attach (f : File) : M (list OpenRouterContentBlock) :=
  if startsWith (lit "image/") (file_type f) then
    dataUrl ← readFileAsDataURL f;
    mret [image_url_block dataUrl; text_block (JStr (image_note f))]
  else if streq (file_type f) (lit "application/pdf") then
    dataUrl ← readFileAsDataURL f;
    mret [file_block (file_name f) dataUrl; text_block (JStr (pdf_note f))]
  else if streq (file_type f) (lit "text/plain") then
    content ← readFileAsText f;
    mret [text_block (JStr (text_file_block f content))]
  else mret [].

(** The loop, pushing onto [userBlocks] file after file. *)
Fixpoint attach_all (files : list File)
    (userBlocks : list OpenRouterContentBlock) : M (list OpenRouterContentBlock) :=
  match files with
  | [] => mret userBlocks
  | f :: rest =>
      pushed ← attach f;
      attach_all rest (userBlocks ++ pushed)
  end.

Definition payload_role (r : Role) : PayloadRole :=
  match r with
  | user => user_role
  | assistant => assistant_role
  end.

Definition turn (m : ChatMessage) : OpenRouterMessage :=
  {| msg_role := payload_role (role m); msg_content := [text_block (text m)] |}.

(** [history], from the cells as the handler's closure sees them. *)
Definition build_history (c : State)
    (userBlocks : list OpenRouterContentBlock) : list OpenRouterMessage :=
  let history := [ {| msg_role := system_role;
                      msg_content := [text_block (JStr (systemPrompt c))] |} ] in
  let recent := slice (messages c) (-12) None in
  let history := history ++ List.map turn recent in
  history ++ [ {| msg_role := user_role; msg_content := userBlocks |} ].

Definition request_of (history : list OpenRouterMessage) : Request :=
  {| url := lit "https://oi-server.onrender.com/chat/completions";
     method := lit "POST";
     headers := [ (lit "CustomerId", lit "cus_T5H02ltiJeUb8v");
                  (lit "Content-Type", lit "application/json");
                  (lit "Authorization", lit "Bearer xxx") ];
     body_model := lit "openrouter/claude-sonnet-4";
     body_messages := history |}.

Definition failure_prefix : jsstring :=
  lit "I ran into an issue reaching the assistant service. Please try again. Details: ".

(** [err?.message || String(err)] *)
Definition describe (err : Error) : jsstring :=
  match message err with
  | [] => toString err
  | m => m
  end.

(** [data?.choices?.[0]?.message?.content ?? "(no response)"] *)
Definition reply_content (data : json) : value :=
  opt_chain (opt_chain (opt_chain (opt_chain (Some data)
    (prop (lit "choices"))) index0) (prop (lit "message"))) (prop (lit "content")).

Definition reply_text (data : json) : json :=
  nullish (reply_content data) (JStr (lit "(no response)")).

Definition nonempty {A} (l : list A) : bool := (0 <? Z.of_nat (length l)).

(** The [try] block. *)
Definition send_body (c : State) (trimmed : jsstring) (hasInput : bool) : M unit :=
  let userBlocks :=
    if hasInput then [text_block (JStr (request_text c trimmed))]
    else [text_block (JStr (attachments_only_text c))] in
  userBlocks ← attach_all (pendingFiles c) userBlocks;
  let history := build_history c userBlocks in
  resp ← fetch (request_of history);
  (if negb (ok resp) then
     textErr ← resp_text resp;
     throw (new_Error (lit "API error: " ++ of_int (status resp) ++ lit " " ++ textErr))
   else mret tt);;
  data ← resp_json resp;
  let content := reply_text data in
  i ← uid;
  t ← Date_now;
  let assistantMsg := {| id := i; role := assistant; text := content; ts := t |} in
  set (setMessages (fun prev => prev ++ [assistantMsg])).

(** The [catch] block. *)
Definition send_catch (err : Error) : M unit :=
  i ← uid;
  t ← Date_now;
  let assistantMsg :=
    {| id := i; role := assistant;
       text := JStr (failure_prefix ++ describe err); ts := t |} in
  set (setMessages (fun prev => prev ++ [assistantMsg])).

(** The [finally] block. *)
Definition send_finally : M unit :=
  set (setIsSending false);;
  set (setPendingFiles (fun _ => [])).

(** [sendMessage], run with the cells [c] of the render it was created in. *)
Definition sendMessage (c : State) : M unit :=
  let trimmed := trim (input c) in
  let hasInput := nonempty trimmed in
  let hasFiles := nonempty (pendingFiles c) in
  if negb hasInput && negb hasFiles then mret tt
  else
    i ← uid;
    t ← Date_now;
    let userMsg :=
      {| id := i; role := user;
         text := JStr (if nonempty trimmed then trimmed else lit "(sent attachments)");
         ts := t |} in
    set (setMessages (fun prev => prev ++ [userMsg]));;
    set (setInput []);;
    set (setIsSending true);;
    try_catch_finally (send_body c trimmed hasInput) send_catch send_finally.

(** The world a click on Send in state [s] starts from. *)
Definition at_click (s : State) : World :=
  {| store := s; requests := []; draws := 0 |}.

(** A click on Send in state [s]: the handler sees the cells of [s] and
    acts on them. The result is the [World] once the handler has settled. *)
Definition click_send (e : Env) (s : State) : World :=
  snd (sendMessage s e (at_click s)).

(** ** The component in use *)

(** The cells at mount. The default prompt is a constant of the source
    whose wording nothing below depends on. *)
Definition initial (DEFAULT_SYSTEM_PROMPT : jsstring) : State :=
  {| messages := []; input := []; pendingFiles := []; isSending := false;
     showAbout := false; showSettings := false;
     systemPrompt := DEFAULT_SYSTEM_PROMPT;
     tone := neutral; depth := balanced; citationMode := cite_auto;
     extractTables := true; describeImages := true; isTouch := false |}.

(** What the user can do, one event handler each. A send is taken as a
    whole, from the click to the [finally] block. *)
Inductive Action :=
| Type_input (v : jsstring)
| Add_files (files : list File)
| Remove_file (n : jsstring)
| Send (e : Env)
| Clear_chat
| Edit_systemPrompt (v : jsstring)
| Pick_tone (v : Tone)
| Pick_depth (v : Depth)
| Pick_citationMode (v : CitationMode)
| Pick_extractTables (v : bool)
| Pick_describeImages (v : bool)
| Show_about (v : bool)
| Show_settings (v : bool).

Definition step (s : State) (a : Action) : State :=
  match a with
  | Type_input v => setInput v s
  | Add_files files => onFiles files s
  | Remove_file n => removePendingFile n s
  | Send e => store (click_send e s)
  | Clear_chat => clearChat s
  | Edit_systemPrompt v => setSystemPrompt v s
  | Pick_tone v => setTone v s
  | Pick_depth v => setDepth v s
  | Pick_citationMode v => setCitationMode v s
  | Pick_extractTables v => setExtractTables v s
  | Pick_describeImages v => setDescribeImages v s
  | Show_about v => setShowAbout v s
  | Show_settings v => setShowSettings v s
  end.

Definition run (s : State) (actions : list Action) : State :=
  fold_left step actions s.

(** ** Vocabulary of the properties *)

(** A read that [attach] starts for [f] and that the reader rejects. *)
Definition read_fails (e : Env) (f : File) : bool :=
  if startsWith (lit "image/") (file_type f) then bool_decide (dataURL_of e f = None)
  else if streq (file_type f) (lit "application/pdf") then bool_decide (dataURL_of e f = None)
  else if streq (file_type f) (lit "text/plain") then bool_decide (text_of e f = None)
  else false.

(** The send passes the guard at the top of [sendMessage]. *)
Definition something_to_send (c : State) : Prop :=
  trim (input c) <> [] \/ pendingFiles c <> [].

(** The conversation after a failed send: the user's turn, then one
    assistant turn made of the fixed prefix and the error's description. *)
Definition failure_reported (c : State) (w : World) (err : Error) : Prop :=
  exists userMsg assistantMsg,
    messages (store w) = messages c ++ [userMsg; assistantMsg] /\
    role userMsg = user /\
    role assistantMsg = assistant /\
    text assistantMsg = JStr (failure_prefix ++ describe err).

(** [v] is what sits at [choices[0].message.content] of [data]. *)
Definition content_at (data : json) (v : json) : Prop :=
  exists choices first msg,
    prop (lit "choices") data = Some choices /\
    index0 choices = Some first /\
    prop (lit "message") first = Some msg /\
    prop (lit "content") msg = Some v.

(** The conversation after a send that got a reply: the user's turn,
    then one assistant turn with the text [t]. *)
Definition reply_shown (c : State) (w : World) (t : json) : Prop :=
  exists userMsg assistantMsg,
    messages (store w) = messages c ++ [userMsg; assistantMsg] /\
    role userMsg = user /\
    role assistantMsg = assistant /\
    text assistantMsg = t.

(** How a send that passed the guard ends: with the error that reached
    the [catch] block, or with the parsed body of the reply. *)
Abbreviation Outcome := (Error + json)%type.

(** The user's turn, made at the [n]-th draw. *)
Definition userMsg_at (e : Env) (c : State) (n : nat) : ChatMessage :=
  {| id := uid_draw e n; role := user;
     text := JStr (if nonempty (trim (input c)) then trim (input c)
                   else lit "(sent attachments)");
     ts := now_draw e (S n) |}.

(** The assistant's turn that closes a send, made at the [n]-th draw. *)
Definition assistantMsg_at (e : Env) (out : Outcome) (n : nat) : ChatMessage :=
  {| id := uid_draw e n; role := assistant;
     text := match out with
             | inl err => JStr (failure_prefix ++ describe err)
             | inr data => reply_text data
             end;
     ts := now_draw e (S n) |}.

(** The world in which a send that started in [w] settles, given its
    outcome and the requests it issued. *)
Definition settled (e : Env) (c : State) (w : World) (out : Outcome)
    (issued : list Request) : World :=
  let n := draws w in
  {| store :=
       setPendingFiles (fun _ => [])
         (setIsSending false
           (setMessages (fun prev => prev ++ [assistantMsg_at e out (S (S n))])
             (setIsSending true
               (setInput []
                 (setMessages (fun prev => prev ++ [userMsg_at e c n]) (store w))))));
     requests := requests w ++ issued;
     draws := S (S (S (S n))) |}.

(** The first block of the current turn. *)
Definition opening_blocks (c : State) : list OpenRouterContentBlock :=
  if nonempty (trim (input c))
  then [text_block (JStr (request_text c (trim (input c))))]
  else [text_block (JStr (attachments_only_text c))].

(** How the exchange over [req] ends. *)
Definition exchange (e : Env) (req : Request) : Outcome :=
  match fetch_outcome e req with
  | inl err => inl err
  | inr resp =>
      if ok resp then body_json resp
      else match body_text resp with
           | inl err => inl err
           | inr textErr =>
               inl (new_Error (lit "API error: " ++ of_int (status resp)
                               ++ lit " " ++ textErr))
           end
  end.

(** The error of a rejected read. *)
Definition file_read_error : Error := new_Error (lit "File read error").

(** [f] is read, and pushes [pushed] onto the blocks of the turn. *)
Definition pushes (e : Env) (f : File) (pushed : list OpenRouterContentBlock) : Prop :=
  forall w, attach f e w = (inr pushed, w).

(** A media type that the component handles. *)
Definition supported (f : File) : Prop :=
  file_type f = lit "application/pdf" \/ file_type f = lit "text/plain" \/
  exists rest, file_type f = lit "image/" ++ rest.

(** The causes of a failed send, each with the error it raises. The
    request named is the one the send issued. *)
Inductive send_fails (e : Env) (c : State) : Error -> Prop :=
| read_rejected :
    existsb (read_fails e) (pendingFiles c) = true ->
    send_fails e c file_read_error
| fetch_rejected req err :
    requests (click_send e c) = [req] ->
    fetch_outcome e req = inl err ->
    send_fails e c err
| status_not_2xx req resp textErr :
    requests (click_send e c) = [req] ->
    fetch_outcome e req = inr resp ->
    ok resp = false ->
    body_text resp = inr textErr ->
    send_fails e c
      (new_Error (lit "API error: " ++ of_int (status resp) ++ lit " " ++ textErr))
| error_body_unreadable req resp err :
    requests (click_send e c) = [req] ->
    fetch_outcome e req = inr resp ->
    ok resp = false ->
    body_text resp = inl err ->
    send_fails e c err
| reply_unparsable req resp err :
    requests (click_send e c) = [req] ->
    fetch_outcome e req = inr resp ->
    ok resp = true ->
    body_json resp = inl err ->
    send_fails e c err.

(** The system block as the specification describes it: one text
    carrying both the configurable prompt and the instructions derived
    from the behaviour settings. *)
Definition system_block_carries_controls (e : Env) (c : State) : Prop :=
  forall req, In req (requests (click_send e c)) ->
  exists t rest,
    body_messages req =
      {| msg_role := system_role; msg_content := [text_block (JStr t)] |} :: rest /\
    includes (systemPrompt c) t = true /\
    includes (controlDirectives c) t = true.

(** The reply rule as the specification words it: any 2xx response
    ends in an assistant turn that shows the content of the reply, or
    else the placeholder. *)
Definition every_2xx_is_shown (e : Env) (c : State) : Prop :=
  forall req resp,
    requests (click_send e c) = [req] ->
    fetch_outcome e req = inr resp ->
    ok resp = true ->
    exists t,
      reply_shown c (click_send e c) t /\
      ((exists data v, body_json resp = inr data /\ content_at data v /\ t = v) \/
       t = JStr (lit "(no response)")).

(** ** Sample inputs *)

Definition demo_state : State :=
  {| messages := []; input := lit "  hi  "; pendingFiles := []; isSending := false;
     showAbout := false; showSettings := false;
     systemPrompt := lit "Be brief.";
     tone := neutral; depth := balanced; citationMode := cite_auto;
     extractTables := true; describeImages := true; isTouch := false |}.

Definition demo_file (n t : string) (size : Z) : File :=
  {| file_name := lit n; file_type := lit t; file_size := size; lastModified := 0 |}.

Definition notes_txt : File := demo_file "notes.txt" "text/plain" 3.
Definition scan_png : File := demo_file "scan.png" "image/png" 900.
Definition scan_png_again : File := demo_file "scan.png" "image/png" 4000.
Definition report_pdf : File := demo_file "report.pdf" "application/pdf" 52000.
Definition setup_exe : File := demo_file "setup.exe" "application/x-msdownload" 70000.

(** A reply [{choices: [{message: {content: "42"}}]}] with status 200. *)
Definition demo_reply : Response :=
  {| status := 200;
     body_text := inr (lit "{...}");
     body_json := inr (JObj [(lit "choices",
                    JArr [JObj [(lit "message",
                      JObj [(lit "content", JStr (lit "42"))])]])]) |}.

(** Status 500 with the body [boom]. *)
Definition demo_server_error : Response :=
  {| status := 500;
     body_text := inr (lit "boom");
     body_json := inl {| name := lit "SyntaxError"; message := lit "Unexpected token b" |} |}.

(** Status 200 with a body that is not JSON. *)
Definition demo_html_reply : Response :=
  {| status := 200;
     body_text := inr (lit "<html>");
     body_json := inl {| name := lit "SyntaxError"; message := lit "Unexpected token <" |} |}.

(** An environment in which every read succeeds and the service
    answers every request with [resp]. *)
Definition demo_env (resp : Response) : Env :=
  {| uid_draw := fun n => lit "k3x" ++ of_int (Z.of_nat n);
     now_draw := fun n => 1700000000000 + Z.of_nat n;
     dataURL_of := fun _ => Some (lit "data:;base64,AAAA");
     text_of := fun _ => Some (lit "abc");
     fetch_outcome := fun _ => inr resp |}.

(** A conversation of [n] earlier turns, the user and the assistant
    taking turns. *)
Fixpoint demo_turns (n : nat) : list ChatMessage :=
  match n with
  | O => []
  | S k =>
      demo_turns k ++
      [{| id := lit "m" ++ of_int (Z.of_nat k);
          role := if Nat.even k then user else assistant;
          text := JStr (lit "turn " ++ of_int (Z.of_nat k));
          ts := 1690000000000 + Z.of_nat k |}]
  end.

(** The sample state after fifteen turns. *)
Definition demo_long_state : State :=
  setMessages (fun _ => demo_turns 15) demo_state.

(** ** Further parts of the component *)

(** The separator of the line under the composer: a bullet between two
    spaces. *)
Definition bullet : jsstring := [32; 8226; 32]%N.

(** [summarizeControls()], the line under the composer. *)
Definition summarizeControls (c : State) : jsstring :=
  let toneText :=
    match tone c with
    | neutral => lit "Neutral tone"
    | friendly => lit "Friendly tone"
    | formal => lit "Formal tone"
    end in
  let depthText :=
    match depth c with
    | concise => lit "Concise answers"
    | balanced => lit "Balanced depth"
    | detailed => lit "Detailed answers"
    end in
  let citeText :=
    match citationMode c with
    | cite_auto => lit "Citations: auto"
    | cite_always => lit "Citations: always"
    | cite_never => lit "Citations: never"
    end in
  toneText ++ bullet ++ depthText ++ bullet ++ citeText ++ bullet ++
  lit "Tables:" ++ (if extractTables c then lit " on" else lit " off") ++ bullet ++
  lit "Images:" ++ (if describeImages c then lit " on" else lit " off").

(** What [exportChat] hands to the browser: the download name, the
    media type of the blob and the value given to [JSON.stringify]. *)
Record Download := {
  download : jsstring;
  blob_type : jsstring;
  exported : list ChatMessage;
}.

(** [exportChat], run with the cells [c] of the render it was created in. *)
Definition exportChat (c : State) : M Download :=
  t ← Date_now;
  mret {| download := lit "elroy-chat-" ++ of_int t ++ lit ".json";
          blob_type := lit "application/json";
          exported := messages c |}.

(** ** Further vocabulary *)

(** The five behaviour controls of the settings panel. *)
Definition controls_of (c : State) : Tone * Depth * CitationMode * bool * bool :=
  (tone c, depth c, citationMode c, extractTables c, describeImages c).

(** A conversation made of exchanges: a user turn, then an assistant
    turn, again and again. *)
Fixpoint exchanges (ms : list ChatMessage) : Prop :=
  match ms with
  | [] => True
  | [_] => False
  | u :: a :: rest => role u = user /\ role a = assistant /\ exchanges rest
  end.

(** The number of content blocks a file pushes when it is read. *)
Definition block_count (f : File) : nat :=
  if startsWith (lit "image/") (file_type f) then 2
  else if streq (file_type f) (lit "application/pdf") then 2
  else if streq (file_type f) (lit "text/plain") then 1
  else 0.

(** An environment in which no file can be read. *)
Definition demo_env_unreadable : Env :=
  {| uid_draw := fun n => lit "k3x" ++ of_int (Z.of_nat n);
     now_draw := fun n => 1700000000000 + Z.of_nat n;
     dataURL_of := fun _ => None;
     text_of := fun _ => None;
     fetch_outcome := fun _ => inr demo_reply |}.

(** An environment in which the network is down. *)
Definition demo_env_offline : Env :=
  {| uid_draw := fun n => lit "k3x" ++ of_int (Z.of_nat n);
     now_draw := fun n => 1700000000000 + Z.of_nat n;
     dataURL_of := fun _ => Some (lit "data:;base64,AAAA");
     text_of := fun _ => Some (lit "abc");
     fetch_outcome := fun _ =>
       inl {| name := lit "TypeError"; message := lit "Failed to fetch" |} |}.

(** * Properties *)

(** ** Strings and arrays *)

Section JsFacts.

Lemma streq_true (a b : jsstring) : streq a b = true <-> a = b.
Proof. unfold streq. apply bool_decide_eq_true. Qed.

Lemma streq_false (a b : jsstring) : streq a b = false <-> a <> b.
Proof. unfold streq. apply bool_decide_eq_false. Qed.

Lemma startsWith_prefix (p s : jsstring) :
  startsWith p s = true <-> exists rest, s = p ++ rest.
Proof.
  revert s. induction p as [|a p IH]; intros s; simpl.
  - split; eauto.
  - destruct s as [|b s].
    + split; [discriminate | intros [rest H]; discriminate].
    + rewrite andb_true_iff, N.eqb_eq, IH. split.
      * intros [-> [rest ->]]. eauto.
      * intros [rest H]. injection H as -> ->. eauto.
Qed.

Lemma nonempty_true {A} (l : list A) : nonempty l = true <-> l <> [].
Proof.
  unfold nonempty. destruct l; simpl; split; intros H; done.
Qed.

Lemma nonempty_false {A} (l : list A) : nonempty l = false <-> l = [].
Proof.
  unfold nonempty. destruct l; simpl; split; intros H; done.
Qed.

(** [l.slice(0, n)] keeps the first [n] elements. *)
Lemma slice_front {A} (l : list A) (n : Z) :
  0 <= n -> slice l 0 (Some n) = take (Z.to_nat n) l.
Proof.
  intros Hn. unfold slice, relative_index.
  replace (0 <? 0) with false by reflexivity.
  replace (n <? 0) with false by (symmetry; apply Z.ltb_ge; lia).
  rewrite (Z.min_l 0) by lia. simpl (Z.to_nat 0). rewrite drop_0, Z.sub_0_r.
  destruct (Z.le_ge_cases n (Z.of_nat (length l))) as [H|H].
  - by rewrite Z.min_l.
  - rewrite Z.min_r by lia. rewrite Nat2Z.id.
    rewrite (take_ge l (length l)) by lia.
    by rewrite (take_ge l (Z.to_nat n)) by lia.
Qed.

(** [l.slice(-k)] keeps the last [k] elements. *)
Lemma slice_back {A} (l : list A) (k : Z) :
  0 < k -> slice l (- k) None = drop (length l - Z.to_nat k) l.
Proof.
  intros Hk. unfold slice, relative_index.
  replace (- k <? 0) with true by (symmetry; apply Z.ltb_lt; lia).
  rewrite take_ge.
  - f_equal. lia.
  - rewrite length_drop. lia.
Qed.

Lemma slice_back_suffix {A} (l : list A) (k : Z) :
  0 < k -> exists older, l = older ++ slice l (- k) None.
Proof.
  intros Hk. exists (take (length l - Z.to_nat k) l).
  rewrite slice_back by done. by rewrite take_drop.
Qed.

Lemma trimStart_spec (s : jsstring) :
  exists pre, s = pre ++ trimStart s /\ forallb is_space pre = true.
Proof.
  induction s as [|c s (pre & Hs & Hpre)]; simpl.
  - by exists [].
  - destruct (is_space c) eqn:Hc.
    + exists (c :: pre). simpl. rewrite Hc, Hpre. split; [by f_equal | done].
    + by exists [].
Qed.

Lemma trimStart_head (s : jsstring) (c : N) :
  head (trimStart s) = Some c -> is_space c = false.
Proof.
  induction s as [|d s IH]; simpl; [done |].
  destruct (is_space d) eqn:Hd; [done |].
  simpl. by intros [= <-].
Qed.

(** [trim] removes a run of white space at each end and nothing else,
    and no white space is left at either end. *)
Lemma trim_spec (s : jsstring) :
  exists pre post,
    s = pre ++ trim s ++ post /\
    forallb is_space pre = true /\ forallb is_space post = true /\
    (forall c, head (trim s) = Some c -> is_space c = false) /\
    (forall c, last (trim s) = Some c -> is_space c = false).
Proof.
  destruct (trimStart_spec s) as (pre & Hs & Hpre).
  destruct (trimStart_spec (rev (trimStart s))) as (post & Ht & Hpost).
  assert (Hmid : trimStart s = trim s ++ rev post).
  { unfold trim, trimEnd. rewrite <- rev_app_distr, <- Ht. by rewrite rev_involutive. }
  exists pre, (rev post). repeat split.
  - by rewrite <- Hmid.
  - done.
  - rewrite forallb_forall in *. intros c Hc. apply Hpost. by apply in_rev.
  - intros c Hc. apply (trimStart_head s c). rewrite Hmid.
    destruct (trim s); [done | by simpl in *].
  - intros c Hc. unfold trim, trimEnd in Hc.
    apply (trimStart_head (rev (trimStart s)) c).
    apply last_Some in Hc as [l' Hl'].
    apply (f_equal (@rev N)) in Hl'.
    rewrite rev_involutive, rev_app_distr in Hl'. by rewrite Hl'.
Qed.

Lemma describe_new_Error (msg : jsstring) :
  msg <> [] -> describe (new_Error msg) = msg.
Proof. unfold describe. simpl. by destruct msg. Qed.

End JsFacts.

(** ** Attachments: acceptance and removal *)

Section Attachments.

Lemma accepted_spec (f : File) : accepted f = true <-> supported f.
Proof.
  unfold accepted, supported. rewrite !orb_true_iff, !streq_true, startsWith_prefix. tauto.
Qed.

Lemma filter_sublist {A} (p : A -> bool) (l : list A) : sublist (List.filter p l) l.
Proof.
  induction l as [|x l IH]; simpl; [constructor |].
  destruct (p x); by constructor.
Qed.

Lemma filter_filter_comm {A} (p q : A -> bool) (l : list A) :
  (forall x, q x = true -> p x = true) ->
  List.filter q (List.filter p l) = List.filter q l.
Proof.
  intros Hqp. induction l as [|x l IH]; simpl; [done |].
  destruct (p x) eqn:Hp; simpl.
  - by rewrite IH.
  - destruct (q x) eqn:Hq; [| done]. apply Hqp in Hq. congruence.
Qed.

End Attachments.

(** ** Running a send *)

Section Running.

Variable e : Env.

Lemma attach_run (f : File) :
  (read_fails e f = true /\ forall w, attach f e w = (inl file_read_error, w)) \/
  (read_fails e f = false /\ exists pushed, pushes e f pushed).
Proof.
  unfold pushes, read_fails, attach, readFileAsDataURL, readFileAsText,
    mbind, M_bind, mret, M_ret.
  destruct (startsWith _ _); [| destruct (streq _ (lit "application/pdf"));
    [| destruct (streq _ (lit "text/plain"))]].
  1, 2: destruct (dataURL_of e f); simpl; eauto.
  - destruct (text_of e f); simpl; eauto.
  - eauto.
Qed.

(** The loop either stops at the first rejected read, or appends, file
    by file, what each file pushes. The world is left as it was. *)
Lemma attach_all_run (files : list File) (blocks : list OpenRouterContentBlock)
    (w : World) :
  (existsb (read_fails e) files = true /\
   attach_all files blocks e w = (inl file_read_error, w)) \/
  (existsb (read_fails e) files = false /\
   exists groups,
     Forall2 (pushes e) files groups /\
     attach_all files blocks e w = (inr (blocks ++ concat groups), w)).
Proof.
  revert blocks. induction files as [|f files IH]; intros blocks; simpl.
  - right. split; [done |]. exists []. split; [constructor |].
    by rewrite app_nil_r.
  - unfold mbind, M_bind.
    destruct (attach_run f) as [[Hf Hrun] | [Hf [pushed Hrun]]];
      rewrite Hf, Hrun; simpl.
    + by left.
    + destruct (IH (blocks ++ pushed)) as [[Hfs Hall] | [Hfs (groups & Hgs & Hall)]].
      * by left.
      * right. split; [done |]. exists (pushed :: groups).
        split; [by constructor |]. rewrite Hrun, Hall. simpl. by rewrite app_assoc.
Qed.

Lemma guard_passed (c : State) :
  something_to_send c ->
  negb (nonempty (trim (input c))) && negb (nonempty (pendingFiles c)) = false.
Proof.
  intros [H | H]; apply nonempty_true in H; rewrite H; simpl; [done |].
  by rewrite andb_false_r.
Qed.

(** Every send that passes the guard settles, in one of two ways: a
    read was rejected and nothing was requested, or all reads went
    through, one request was issued, and the exchange decided. *)
Lemma sendMessage_run (c : State) (w : World) :
  something_to_send c ->
  (existsb (read_fails e) (pendingFiles c) = true /\
   sendMessage c e w = (inr tt, settled e c w (inl file_read_error) [])) \/
  (existsb (read_fails e) (pendingFiles c) = false /\
   exists groups,
     Forall2 (pushes e) (pendingFiles c) groups /\
     let req := request_of (build_history c (opening_blocks c ++ concat groups)) in
     sendMessage c e w = (inr tt, settled e c w (exchange e req) [req])).
Proof.
  intros Hgo. unfold sendMessage. rewrite (guard_passed c Hgo).
  unfold try_catch_finally, send_body, mbind, M_bind. simpl.
  match goal with |- context [attach_all ?fs ?b e ?w0] =>
    destruct (attach_all_run fs b w0) as [[Hfs Hall] | [Hfs (groups & Hgs & Hall)]];
    rewrite Hall end.
  - left. split; [done |]. simpl. unfold settled. simpl. rewrite app_nil_r. reflexivity.
  - right. split; [done |]. exists groups. split; [done |].
    unfold exchange, settled, opening_blocks, fetch, resp_text, resp_json. simpl.
    destruct (fetch_outcome e _) as [err | resp]; [reflexivity |].
    simpl. destruct (ok resp); simpl.
    + destruct (body_json resp); reflexivity.
    + destruct (body_text resp); reflexivity.
Qed.

Lemma sendMessage_noop (c : State) (w : World) :
  trim (input c) = [] -> pendingFiles c = [] -> sendMessage c e w = (inr tt, w).
Proof. intros Ht Hp. unfold sendMessage. by rewrite Ht, Hp. Qed.

Lemma guard_dec (c : State) :
  something_to_send c \/ (trim (input c) = [] /\ pendingFiles c = []).
Proof.
  unfold something_to_send.
  destruct (trim (input c)); [| by left; left].
  destruct (pendingFiles c); [by right | by left; right].
Qed.

(** Whatever the outcome, a send that passed the guard returns normally
    and leaves the world [settled]. *)
Lemma sendMessage_settles (c : State) (w : World) :
  something_to_send c ->
  exists out issued,
    sendMessage c e w = (inr tt, settled e c w out issued) /\
    (length issued <= 1)%nat.
Proof.
  intros Hgo.
  destruct (sendMessage_run c w Hgo) as [[_ Hrun] | [_ (groups & _ & Hrun)]].
  - exists (inl file_read_error), []. split; [done | simpl; lia].
  - eexists _, [_]. split; [exact Hrun | simpl; lia].
Qed.

Lemma settled_messages (c : State) (w : World) (out : Outcome) issued :
  messages (store (settled e c w out issued)) =
  messages (store w) ++
    [userMsg_at e c (draws w); assistantMsg_at e out (S (S (draws w)))].
Proof. simpl. by rewrite <- app_assoc. Qed.

(** A request in the log of a click: the reads went through, the
    request is the one built from what they pushed, and the exchange
    over it decided how the send settled. *)
Lemma issued_request (c : State) (req : Request) :
  In req (requests (click_send e c)) ->
  something_to_send c /\
  existsb (read_fails e) (pendingFiles c) = false /\
  exists groups,
    Forall2 (pushes e) (pendingFiles c) groups /\
    req = request_of (build_history c (opening_blocks c ++ concat groups)) /\
    click_send e c = settled e c (at_click c) (exchange e req) [req].
Proof.
  unfold click_send. intros Hin.
  destruct (guard_dec c) as [Hgo | [Ht Hp]].
  - destruct (sendMessage_run c (at_click c) Hgo)
      as [[_ Hrun] | [Hfs (groups & Hgs & Hrun)]];
      rewrite Hrun in Hin |- *; simpl in Hin.
    + done.
    + destruct Hin as [<- | []]. eauto 10.
  - rewrite (sendMessage_noop c _ Ht Hp) in Hin. done.
Qed.

Lemma rejected_read (c : State) :
  something_to_send c ->
  existsb (read_fails e) (pendingFiles c) = true ->
  click_send e c = settled e c (at_click c) (inl file_read_error) [].
Proof.
  intros Hgo Hfs. unfold click_send.
  destruct (sendMessage_run c (at_click c) Hgo)
    as [[_ Hrun] | [Hfs' _]]; [by rewrite Hrun | congruence].
Qed.

End Running.

(** ** The state after a send *)

(** C5. After a send attempt that passes the emptiness guard, whether
    the exchange succeeded or failed, the pending-attachment list is
    empty and the is-sending flag is false. The handler may start from
    any live cells [w]; a click on Send is the case where they are the
    cells [c] of the render. *)
Theorem send_clears_pending_and_flag (e : Env) (c : State) (w : World) :
  something_to_send c ->
  fst (sendMessage c e w) = inr tt /\
  pendingFiles (store (snd (sendMessage c e w))) = [] /\
  isSending (store (snd (sendMessage c e w))) = false /\
  pendingFiles (store (click_send e c)) = [] /\
  isSending (store (click_send e c)) = false.
Proof.
  intros Hgo. unfold click_send.
  destruct (sendMessage_settles e c w Hgo) as (out & issued & -> & _).
  destruct (sendMessage_settles e c
              (at_click c) Hgo)
    as (out' & issued' & -> & _).
  done.
Qed.

Lemma send_clears_pending_and_flag_witness :
  something_to_send (appendFiles [notes_txt] demo_state) /\
  pendingFiles (store (click_send (demo_env demo_server_error)
                         (appendFiles [notes_txt] demo_state))) = [] /\
  isSending (store (click_send (demo_env demo_server_error)
                      (appendFiles [notes_txt] demo_state))) = false.
Proof.
  assert (Hgo : something_to_send (appendFiles [notes_txt] demo_state)).
  { right. vm_compute. discriminate. }
  split; [exact Hgo |].
  apply (send_clears_pending_and_flag (demo_env demo_server_error)
           (appendFiles [notes_txt] demo_state)
           (at_click (appendFiles [notes_txt] demo_state)) Hgo).
Defined.

(** C6. With an input that is empty once trimmed and no pending
    attachment, a send changes nothing: the handler returns at once, the
    messages, the pending list, the input text and the is-sending flag
    are the ones before, and no request is issued. *)
Theorem send_nothing_is_noop (e : Env) (c : State) (w : World) :
  trim (input c) = [] -> pendingFiles c = [] ->
  sendMessage c e w = (inr tt, w) /\
  messages (store (click_send e c)) = messages c /\
  pendingFiles (store (click_send e c)) = pendingFiles c /\
  input (store (click_send e c)) = input c /\
  isSending (store (click_send e c)) = isSending c /\
  store (click_send e c) = c /\
  requests (click_send e c) = [].
Proof.
  intros Ht Hp. unfold click_send.
  rewrite !(sendMessage_noop e c _ Ht Hp). by repeat split.
Qed.

Lemma send_nothing_is_noop_witness :
  let blank := setInput (lit "   ") demo_state in
  trim (input blank) = [] /\ pendingFiles blank = [] /\
  store (click_send (demo_env demo_reply) blank) = blank /\
  requests (click_send (demo_env demo_reply) blank) = [].
Proof.
  intros blank.
  assert (Ht : trim (input blank) = []) by reflexivity.
  assert (Hp : pendingFiles blank = []) by reflexivity.
  split; [exact Ht |]. split; [exact Hp |].
  apply (send_nothing_is_noop (demo_env demo_reply) blank
           (at_click blank) Ht Hp).
Defined.

(** ** Clearing the conversation *)

(** C8. Clearing the conversation empties the message sequence and
    leaves the behaviour settings (tone, depth, citation mode, the two
    extraction toggles, the system prompt) and the pending-attachment
    list as they were; so are the remaining cells. *)
Theorem clearChat_frame (s : State) :
  messages (clearChat s) = [] /\
  tone (clearChat s) = tone s /\
  depth (clearChat s) = depth s /\
  citationMode (clearChat s) = citationMode s /\
  extractTables (clearChat s) = extractTables s /\
  describeImages (clearChat s) = describeImages s /\
  systemPrompt (clearChat s) = systemPrompt s /\
  pendingFiles (clearChat s) = pendingFiles s /\
  input (clearChat s) = input s /\
  isSending (clearChat s) = isSending s /\
  showAbout (clearChat s) = showAbout s /\
  showSettings (clearChat s) = showSettings s /\
  isTouch (clearChat s) = isTouch s.
Proof. by repeat split. Qed.

(** ** Attachments: what stays pending *)

Section Pending.

Lemma filter_In_iff {A} (p : A -> bool) (l : list A) (x : A) :
  In x (List.filter p l) <-> In x l /\ p x = true.
Proof. apply filter_In. Qed.

(** C9. Removal is keyed by filename only: every pending file of that
    name goes (two distinct files sharing it go together), and the
    files of any other name stay, each as often as before and in the
    original order. No other cell changes. *)
Theorem removePendingFile_by_name (n : jsstring) (s : State) :
  let before := pendingFiles s in
  let after := pendingFiles (removePendingFile n s) in
  (forall f, In f after <-> In f before /\ file_name f <> n) /\
  (forall f g, f <> g -> file_name f = n -> file_name g = n ->
     ~ In f after /\ ~ In g after) /\
  sublist after before /\
  (forall m, m <> n ->
     List.filter (fun f => streq (file_name f) m) after =
     List.filter (fun f => streq (file_name f) m) before) /\
  setPendingFiles (fun _ => before) (removePendingFile n s) = s.
Proof.
  simpl.
  assert (Hkept : forall f,
    In f (List.filter (fun f => negb (streq (file_name f) n)) (pendingFiles s)) <->
    In f (pendingFiles s) /\ file_name f <> n).
  { intros f. rewrite filter_In_iff, negb_true_iff, streq_false. done. }
  split; [exact Hkept |]. repeat split.
  - intros Hin. by apply Hkept in Hin as [_ Hn].
  - intros Hin. by apply Hkept in Hin as [_ Hn].
  - apply filter_sublist.
  - intros m Hm. apply filter_filter_comm. intros f Hf.
    apply streq_true in Hf. apply negb_true_iff, streq_false. congruence.
  - by destruct s.
Qed.

(** Two files called scan.png, told apart by their size, go together. *)
Example remove_shared_name :
  scan_png <> scan_png_again /\
  pendingFiles (removePendingFile (lit "scan.png")
    (appendFiles [scan_png; notes_txt; scan_png_again; report_pdf] demo_state))
  = [notes_txt; report_pdf].
Proof. split; [discriminate | reflexivity]. Qed.

Lemma appendFiles_pending (files : list File) (s : State) :
  pendingFiles (appendFiles files s) = pendingFiles s ++ List.filter accepted files.
Proof. reflexivity. Qed.

Lemma filter_accepted_supported (files : list File) :
  Forall supported (List.filter accepted files).
Proof.
  apply Forall_forall. intros f Hf. rewrite list_elem_of_In in Hf.
  apply filter_In_iff in Hf as [_ Hf]. by apply accepted_spec.
Qed.

Lemma step_supported (s : State) (a : Action) :
  Forall supported (pendingFiles s) -> Forall supported (pendingFiles (step s a)).
Proof.
  intros Hs. destruct a; cbn [step]; try done.
  - unfold onFiles. destruct files; [done |]. rewrite appendFiles_pending.
    apply Forall_app. split; [done | apply filter_accepted_supported].
  - unfold removePendingFile. simpl. rewrite Forall_forall in *.
    intros f Hf. rewrite list_elem_of_In in Hf.
    apply filter_In_iff in Hf as [Hf _]. apply Hs. by rewrite list_elem_of_In.
  - destruct (guard_dec s) as [Hgo | [Ht Hp]].
    + unfold click_send.
      by destruct (sendMessage_settles e s
                     (at_click s) Hgo)
        as (out & issued & -> & _).
    + unfold click_send. by rewrite (sendMessage_noop e s _ Ht Hp).
Qed.

Lemma run_supported (s : State) (actions : list Action) :
  Forall supported (pendingFiles s) -> Forall supported (pendingFiles (run s actions)).
Proof.
  revert s. induction actions as [|a actions IH]; intros s Hs; simpl; [done |].
  apply IH. by apply step_supported.
Qed.

End Pending.

(** ** The outbound payload *)

Section Payload.

Variable e : Env.

Lemma startsWith_app (p s : jsstring) : startsWith p (p ++ s) = true.
Proof. apply startsWith_prefix. eauto. Qed.

Lemma includes_here (p b : jsstring) : includes p (p ++ b) = true.
Proof.
  pose proof (startsWith_app p b) as H.
  destruct (p ++ b); simpl; by rewrite H.
Qed.

Lemma includes_later (p a s : jsstring) :
  includes p s = true -> includes p (a ++ s) = true.
Proof.
  intros H. induction a as [|x a IH]; simpl; [done |].
  rewrite IH. apply orb_true_r.
Qed.

(** The settings are spelled out in the first block of the current
    turn, whichever of the two openings is used. *)
Lemma opening_blocks_controls (c : State) :
  exists first,
    opening_blocks c = [text_block (JStr first)] /\
    includes (controlDirectives c) first = true.
Proof.
  unfold opening_blocks, request_text, attachments_only_text.
  destruct (nonempty _); eexists; (split; [reflexivity |]).
  - do 6 apply includes_later. apply includes_here.
  - do 3 apply includes_later. apply includes_here.
Qed.

Lemma build_history_shape (c : State) (userBlocks : list OpenRouterContentBlock) :
  build_history c userBlocks =
  {| msg_role := system_role; msg_content := [text_block (JStr (systemPrompt c))] |}
  :: List.map turn (slice (messages c) (-12) None)
  ++ [{| msg_role := user_role; msg_content := userBlocks |}].
Proof. reflexivity. Qed.

(** C1, as the code has it. Every request of a send carries: one system
    block whose only content is the configurable system prompt; then
    the last 12 prior turns at most (all of them when there are fewer),
    each as a single text block under its own role; then one user block
    for the current turn, and nothing else. The instructions derived
    from the behaviour settings are not in the system block: they are
    spelled out in the first text block of the current turn. A send
    issues no second request. *)
Theorem payload_shape (c : State) (req : Request) :
  In req (requests (click_send e c)) ->
  exists recent first rest,
    requests (click_send e c) = [req] /\
    body_messages req =
      {| msg_role := system_role;
         msg_content := [text_block (JStr (systemPrompt c))] |}
      :: List.map turn recent
      ++ [{| msg_role := user_role;
             msg_content := text_block (JStr first) :: rest |}] /\
    (exists older, messages c = older ++ recent) /\
    length recent = Nat.min 12 (length (messages c)) /\
    (length (body_messages req) <= 14)%nat /\
    includes (controlDirectives c) first = true.
Proof.
  intros Hin.
  destruct (issued_request e c req Hin) as (_ & _ & groups & _ & -> & ->).
  destruct (opening_blocks_controls c) as (first & Hopen & Hfirst).
  exists (slice (messages c) (-12) None), first, (concat groups).
  assert (Hlen : length (slice (messages c) (-12) None)
                 = Nat.min 12 (length (messages c))).
  { rewrite (slice_back _ 12), length_drop by lia. lia. }
  repeat split.
  - unfold request_of. cbn [body_messages].
    by rewrite build_history_shape, Hopen.
  - apply (slice_back_suffix _ 12). lia.
  - exact Hlen.
  - unfold request_of. cbn [body_messages]. rewrite build_history_shape.
    cbn [length]. rewrite length_app, length_map, Hlen. cbn [length]. lia.
  - exact Hfirst.
Qed.

End Payload.

Lemma payload_shape_witness :
  let c := demo_long_state in
  let req := request_of (build_history c (opening_blocks c)) in
  In req (requests (click_send (demo_env demo_reply) c)) /\
  exists recent first rest,
    requests (click_send (demo_env demo_reply) c) = [req] /\
    body_messages req =
      {| msg_role := system_role;
         msg_content := [text_block (JStr (systemPrompt c))] |}
      :: List.map turn recent
      ++ [{| msg_role := user_role;
             msg_content := text_block (JStr first) :: rest |}] /\
    (exists older, messages c = older ++ recent) /\
    length recent = Nat.min 12 (length (messages c)) /\
    (length (body_messages req) <= 14)%nat /\
    includes (controlDirectives c) first = true.
Proof.
  intros c req.
  assert (Hin : In req (requests (click_send (demo_env demo_reply) c))).
  { left. vm_compute. reflexivity. }
  split; [exact Hin |].
  apply (payload_shape (demo_env demo_reply) c req Hin).
Defined.

(** The system block is the same whatever the behaviour settings. *)
Lemma system_block_ignores_controls (c : State) blocks
    (t : Tone) (d : Depth) (m : CitationMode) (x i : bool) :
  head (build_history
          (setTone t (setDepth d (setCitationMode m
            (setExtractTables x (setDescribeImages i c))))) blocks)
  = head (build_history c blocks).
Proof. reflexivity. Qed.

(** C1, as stated, fails. With the system prompt "Be brief." and the
    default settings, the system block of the request is the text
    "Be brief." alone, in which "Tone: neutral | ..." does not occur. *)
Lemma system_block_lacks_controls :
  ~ system_block_carries_controls (demo_env demo_reply) demo_state.
Proof.
  intros H.
  destruct (H (request_of (build_history demo_state (opening_blocks demo_state))))
    as (t & rest & Hblock & _ & Hcontrols).
  - left. vm_compute. reflexivity.
  - vm_compute in Hblock. injection Hblock as <- _.
    vm_compute in Hcontrols. discriminate.
Qed.

(** ** How a send ends *)

Section Ending.

Variable e : Env.

Lemma settled_failure (c : State) (err : Error) (issued : list Request) :
  failure_reported c (settled e c (at_click c) (inl err) issued) err.
Proof.
  exists (userMsg_at e c 0), (assistantMsg_at e (inl err) 2).
  by rewrite settled_messages.
Qed.

Lemma settled_reply (c : State) (data : json) (issued : list Request) :
  reply_shown c (settled e c (at_click c) (inr data) issued) (reply_text data).
Proof.
  exists (userMsg_at e c 0), (assistantMsg_at e (inr data) 2).
  by rewrite settled_messages.
Qed.

(** The send settled by the exchange over the one request it issued. *)
Lemma settled_by_exchange (c : State) (req : Request) :
  requests (click_send e c) = [req] ->
  click_send e c = settled e c (at_click c) (exchange e req) [req].
Proof.
  intros Hreq.
  assert (Hin : In req (requests (click_send e c))) by (rewrite Hreq; by left).
  by destruct (issued_request e c req Hin) as (_ & _ & groups & _ & _ & ->).
Qed.

(** Reduce a goal about a send that issued [req] to the exchange over
    [req]. *)
Ltac by_exchange c req Hreq :=
  exists [req]; rewrite (settled_by_exchange c req Hreq);
  split; [| simpl; lia]; unfold exchange.

(** C2. A send that fails, whatever the cause (a rejected file read, a
    rejected fetch such as a network error or the abort at the timeout,
    a status outside 2xx, a body that cannot be read or parsed), adds
    after the user's turn exactly one assistant turn, whose text is the
    fixed prefix followed by the description of the error. At most one
    request was issued: there is no retry. *)
Theorem failed_send_reported (c : State) (err : Error) :
  something_to_send c ->
  send_fails e c err ->
  failure_reported c (click_send e c) err /\
  (length (requests (click_send e c)) <= 1)%nat.
Proof.
  intros Hgo Hfail.
  assert (Hsettled : exists issued,
    click_send e c = settled e c (at_click c) (inl err) issued /\
    (length issued <= 1)%nat).
  { destruct Hfail as [Hread | req err Hreq Hfetch | req resp textErr Hreq Hfetch Hok Htext
                      | req resp err Hreq Hfetch Hok Htext | req resp err Hreq Hfetch Hok Hjson].
    - exists []. split; [by apply rejected_read | simpl; lia].
    - by_exchange c req Hreq. by rewrite Hfetch.
    - by_exchange c req Hreq. by rewrite Hfetch, Hok, Htext.
    - by_exchange c req Hreq. by rewrite Hfetch, Hok, Htext.
    - by_exchange c req Hreq. by rewrite Hfetch, Hok, Hjson. }
  destruct Hsettled as (issued & -> & Hlen). split.
  - apply settled_failure.
  - simpl. lia.
Qed.

(** The causes listed by [send_fails] are all there are: a send that
    passed the guard and did not fail got a 2xx response with a body
    that parses. *)
Lemma fails_or_replies (c : State) :
  something_to_send c ->
  (exists err, send_fails e c err) \/
  (exists req resp data,
     requests (click_send e c) = [req] /\ fetch_outcome e req = inr resp /\
     ok resp = true /\ body_json resp = inr data).
Proof.
  intros Hgo. unfold click_send.
  destruct (sendMessage_run e c (at_click c) Hgo)
    as [[Hread _] | [_ (groups & _ & Hrun)]].
  - left. eexists. by apply read_rejected.
  - set (req := request_of _) in Hrun.
    assert (Hreq : requests (click_send e c) = [req])
      by (unfold click_send; by rewrite Hrun).
    destruct (fetch_outcome e req) as [err | resp] eqn:Hfetch.
    { left. exists err. by apply (fetch_rejected e c req). }
    destruct (ok resp) eqn:Hok.
    + destruct (body_json resp) as [err | data] eqn:Hjson.
      * left. exists err. by apply (reply_unparsable e c req resp).
      * right. by exists req, resp, data.
    + destruct (body_text resp) as [err | textErr] eqn:Htext.
      * left. exists err. by apply (error_body_unreadable e c req resp).
      * left. eexists. by apply (status_not_2xx e c req resp textErr).
Qed.

Lemma opt_chain_bind (v : value) (access : json -> value) :
  access JNull = None -> opt_chain v access = v ≫= access.
Proof. intros H. by destruct v as [[]|]. Qed.

Lemma reply_content_spec (data v : json) :
  reply_content data = Some v <-> content_at data v.
Proof.
  unfold reply_content, content_at.
  rewrite !opt_chain_bind by done. simpl. split.
  - intros H.
    apply bind_Some in H as (msg & H & Hcontent).
    apply bind_Some in H as (first & H & Hmsg).
    apply bind_Some in H as (choices & Hchoices & Hfirst).
    eauto 10.
  - intros (choices & first & msg & -> & Hfirst & Hmsg & Hcontent).
    simpl. rewrite Hfirst. simpl. by rewrite Hmsg.
Qed.

(** C3, as the code has it. When the response has a 2xx status and its
    body parses as JSON, the send adds one assistant turn whose text is
    the value at choices[0].message.content of the body; when nothing is
    there, or null is, the text is "(no response)". *)
Theorem parsed_reply_shown (c : State) (req : Request) (resp : Response)
    (data : json) :
  requests (click_send e c) = [req] ->
  fetch_outcome e req = inr resp ->
  ok resp = true ->
  body_json resp = inr data ->
  exists t,
    reply_shown c (click_send e c) t /\
    (forall v, content_at data v -> v <> JNull -> t = v) /\
    ((forall v, content_at data v -> v = JNull) ->
       t = JStr (lit "(no response)")).
Proof.
  intros Hreq Hfetch Hok Hjson. exists (reply_text data).
  rewrite (settled_by_exchange c req Hreq).
  unfold exchange. rewrite Hfetch, Hok, Hjson.
  split; [apply settled_reply |]. unfold reply_text. split.
  - intros v Hv Hnull. apply reply_content_spec in Hv. rewrite Hv.
    by destruct v.
  - intros Hnone. destruct (reply_content data) as [v|] eqn:Hv; [| done].
    apply reply_content_spec, Hnone in Hv. by subst v.
Qed.

End Ending.

(** The ways for the content to be structurally absent. *)
Lemma content_absent (data : json) :
  prop (lit "choices") data = None \/
  (exists choices, prop (lit "choices") data = Some choices /\
     (index0 choices = None \/
      exists first, index0 choices = Some first /\
        (prop (lit "message") first = None \/
         exists msg, prop (lit "message") first = Some msg /\
           prop (lit "content") msg = None))) ->
  forall v, content_at data v -> v = JNull.
Proof.
  intros Habsent v (choices & first & msg & Hc & Hf & Hm & Hv).
  destruct Habsent as [H | (ch & H & [H1 | (fi & H1 & [H2 | (ms & H2 & H3)])])];
    congruence.
Qed.

Lemma failed_send_reported_witness :
  let e := demo_env demo_server_error in
  let err := new_Error (lit "API error: 500 boom") in
  something_to_send demo_state /\
  send_fails e demo_state err /\
  failure_reported demo_state (click_send e demo_state) err /\
  (length (requests (click_send e demo_state)) <= 1)%nat.
Proof.
  intros e err.
  assert (Hgo : something_to_send demo_state) by (left; vm_compute; discriminate).
  assert (Hfail : send_fails e demo_state err).
  { apply (status_not_2xx e demo_state
             (request_of (build_history demo_state (opening_blocks demo_state)))
             demo_server_error (lit "boom")); reflexivity. }
  split; [exact Hgo |]. split; [exact Hfail |].
  apply (failed_send_reported e demo_state err Hgo Hfail).
Defined.

(** The text that the user reads after the status 500 above. *)
Example failed_send_text :
  List.map text (messages (store (click_send (demo_env demo_server_error) demo_state)))
  = [ JStr (lit "hi");
      JStr (lit "I ran into an issue reaching the assistant service. Please try again. Details: API error: 500 boom") ].
Proof. vm_compute. reflexivity. Qed.

Lemma parsed_reply_shown_witness :
  let e := demo_env demo_reply in
  let req := request_of (build_history demo_state (opening_blocks demo_state)) in
  let data := JObj [(lit "choices",
                JArr [JObj [(lit "message",
                  JObj [(lit "content", JStr (lit "42"))])]])] in
  requests (click_send e demo_state) = [req] /\
  fetch_outcome e req = inr demo_reply /\
  ok demo_reply = true /\
  body_json demo_reply = inr data /\
  exists t,
    reply_shown demo_state (click_send e demo_state) t /\
    (forall v, content_at data v -> v <> JNull -> t = v) /\
    ((forall v, content_at data v -> v = JNull) ->
       t = JStr (lit "(no response)")).
Proof.
  intros e req data.
  assert (Hreq : requests (click_send e demo_state) = [req]) by reflexivity.
  assert (Hfetch : fetch_outcome e req = inr demo_reply) by reflexivity.
  assert (Hok : ok demo_reply = true) by reflexivity.
  assert (Hjson : body_json demo_reply = inr data) by reflexivity.
  repeat (split; [assumption |]).
  apply (parsed_reply_shown e demo_state req demo_reply data Hreq Hfetch Hok Hjson).
Defined.

(** A reply whose content is "42" is shown as "42". *)
Example reply_42_text :
  List.map text (messages (store (click_send (demo_env demo_reply) demo_state)))
  = [ JStr (lit "hi"); JStr (lit "42") ].
Proof. vm_compute. reflexivity. Qed.

(** C3, as stated, fails. A response with status 200 whose body is not
    JSON ends in the failure message: neither the content of a reply nor
    the placeholder. *)
Lemma unparsable_2xx_reported_as_failure :
  ~ every_2xx_is_shown (demo_env demo_html_reply) demo_state.
Proof.
  intros H.
  destruct (H (request_of (build_history demo_state (opening_blocks demo_state)))
              demo_html_reply)
    as (t & Hshown & [(data & v & Hjson & _) | Ht]);
    [reflexivity | reflexivity | reflexivity | discriminate Hjson |].
  destruct Hshown as (userMsg & assistantMsg & Hmsgs & _ & _ & Htext).
  vm_compute in Hmsgs. injection Hmsgs as _ Hlast.
  rewrite <- Hlast, Ht in Htext. vm_compute in Htext. discriminate.
Qed.

Example unparsable_2xx_text :
  List.map text (messages (store (click_send (demo_env demo_html_reply) demo_state)))
  = [ JStr (lit "hi");
      JStr (lit "I ran into an issue reaching the assistant service. Please try again. Details: Unexpected token <") ].
Proof. vm_compute. reflexivity. Qed.

(** ** What the attachments contribute *)

Section Contribution.

Variable e : Env.

Lemma pushes_once (f : File) (p p' : list OpenRouterContentBlock) (w : World) :
  pushes e f p -> pushes e f p' -> p = p'.
Proof. intros H H'. specialize (H w). rewrite H' in H. congruence. Qed.

Lemma pushed_in_groups (files : list File) groups (f : File) p (w : World) :
  Forall2 (pushes e) files groups -> In f files -> pushes e f p ->
  forall b, In b p -> In b (concat groups).
Proof.
  intros Hall. induction Hall as [|f' g files groups Hf' Hall IH];
    intros Hin Hp b Hb; simpl in *; [done |].
  apply in_or_app. destruct Hin as [-> | Hin].
  - left. by rewrite (pushes_once f g p w Hf' Hp).
  - right. by apply IH.
Qed.

(** The current turn of an issued request: the opening block, then
    what each pending file pushed, in the order of the list. *)
Lemma current_turn (c : State) (req : Request) :
  In req (requests (click_send e c)) ->
  exists turns groups,
    Forall2 (pushes e) (pendingFiles c) groups /\
    body_messages req =
      turns ++ [{| msg_role := user_role;
                   msg_content := opening_blocks c ++ concat groups |}].
Proof.
  intros Hin.
  destruct (issued_request e c req Hin) as (_ & _ & groups & Hgs & -> & _).
  eexists (_ :: _), groups. split; [done |]. reflexivity.
Qed.

Lemma text_plain_pushes (f : File) (content : jsstring) :
  file_type f = lit "text/plain" -> text_of e f = Some content ->
  pushes e f [text_block (JStr (text_file_block f content))].
Proof.
  intros Htype Hread w. unfold attach. rewrite Htype.
  replace (startsWith (lit "image/") (lit "text/plain")) with false by reflexivity.
  replace (streq (lit "text/plain") (lit "application/pdf")) with false by reflexivity.
  replace (streq (lit "text/plain") (lit "text/plain")) with true by reflexivity.
  unfold readFileAsText, mbind, M_bind. by rewrite Hread.
Qed.

(** C4. A text/plain attachment that is read contributes one text
    block: a heading naming the file, a begin marker line naming the
    file, the first 200,000 characters of the decoded text (all of it
    when it is no longer than that), and an end marker line naming the
    file. The block is part of the current turn of the request. *)
Theorem text_attachment_block (f : File) (content : jsstring) :
  file_type f = lit "text/plain" ->
  text_of e f = Some content ->
  exists body dropped,
    content = body ++ dropped /\
    Z.of_nat (length body) = Z.min 200000 (Z.of_nat (length content)) /\
    (Z.of_nat (length content) <= 200000 -> body = content) /\
    let block :=
      text_block (JStr (
        lit "Attachment: Text file " ++ dq ++ file_name f ++ dq ++
        lit ". Content below:" ++ nl ++
        lit "----- BEGIN " ++ file_name f ++ lit " -----" ++ nl ++
        body ++
        nl ++ lit "----- END " ++ file_name f ++ lit " -----")) in
    pushes e f [block] /\
    forall c req,
      In f (pendingFiles c) -> In req (requests (click_send e c)) ->
      exists turns blocks,
        body_messages req =
          turns ++ [{| msg_role := user_role; msg_content := blocks |}] /\
        In block blocks.
Proof.
  intros Htype Hread.
  pose proof (text_plain_pushes f content Htype Hread) as Hpush.
  unfold text_file_block, begin_marker, end_marker in Hpush.
  rewrite slice_front in Hpush by lia.
  set (n := Z.to_nat 200000) in *.
  assert (Hn : Z.of_nat n = 200000) by (subst n; apply Z2Nat.id; lia).
  clearbody n.
  exists (take n content), (drop n content).
  split; [by rewrite take_drop |].
  split; [rewrite length_take; lia |].
  split; [intros Hshort; apply take_ge; lia |].
  rewrite <- !app_assoc in Hpush. split; [exact Hpush |].
  intros c req Hf Hin.
  destruct (current_turn c req Hin) as (turns & groups & Hgs & ->).
  eexists turns, _. split; [reflexivity |].
  apply in_or_app. right.
  apply (pushed_in_groups _ _ f _ (at_click c) Hgs Hf Hpush). by left.
Qed.

End Contribution.

Lemma text_attachment_block_witness :
  let e := demo_env demo_reply in
  file_type notes_txt = lit "text/plain" /\
  text_of e notes_txt = Some (lit "abc") /\
  pushes e notes_txt
    [text_block (JStr (
       lit "Attachment: Text file " ++ dq ++ lit "notes.txt" ++ dq ++
       lit ". Content below:" ++ nl ++
       lit "----- BEGIN notes.txt -----" ++ nl ++
       lit "abc" ++
       nl ++ lit "----- END notes.txt -----"))].
Proof.
  intros e.
  assert (Htype : file_type notes_txt = lit "text/plain") by reflexivity.
  assert (Hread : text_of e notes_txt = Some (lit "abc")) by reflexivity.
  split; [exact Htype |]. split; [exact Hread |].
  destruct (text_attachment_block e notes_txt (lit "abc") Htype Hread)
    as (body & dropped & _ & _ & Hshort & Hpush & _).
  rewrite Hshort in Hpush by (vm_compute; discriminate).
  exact Hpush.
Defined.

(** A text of 200,001 characters loses its last one. *)
Example long_text_truncated :
  let content := repeat 120%N (Z.to_nat 200001) in
  Z.of_nat (length (slice content 0 (Some 200000))) = 200000.
Proof. vm_compute. reflexivity. Qed.

(** ** Acceptance of files *)

(** C7. Of the files selected or dropped, exactly those whose declared
    media type is application/pdf, text/plain or starts with image/ join
    the pending list, in their order and after the files already
    pending; the others are dropped without notice. Hence, from mount
    on and whatever the user does, every pending file has a supported
    type, and so has every file that contributes to a request. *)
Theorem only_supported_files_pending (files : list File) (s : State)
    (prompt : jsstring) (actions : list Action) :
  (forall f, In f (pendingFiles (appendFiles files s)) <->
             In f (pendingFiles s) \/ (In f files /\ supported f)) /\
  (exists kept, pendingFiles (appendFiles files s) = pendingFiles s ++ kept /\
                sublist kept files /\ Forall supported kept) /\
  pendingFiles (onFiles files s) = pendingFiles (appendFiles files s) /\
  Forall supported (pendingFiles (run (initial prompt) actions)) /\
  (forall e req,
     In req (requests (click_send e (run (initial prompt) actions))) ->
     exists turns groups,
       Forall2 (fun f pushed => supported f /\ pushes e f pushed)
         (pendingFiles (run (initial prompt) actions)) groups /\
       body_messages req =
         turns ++ [{| msg_role := user_role;
                      msg_content := opening_blocks (run (initial prompt) actions)
                                     ++ concat groups |}]).
Proof.
  assert (Hinv : Forall supported (pendingFiles (run (initial prompt) actions))).
  { apply run_supported. constructor. }
  repeat split.
  - rewrite appendFiles_pending. intros Hin.
    apply in_app_or in Hin as [Hin | Hin]; [by left | right].
    apply filter_In_iff in Hin as [Hin Hacc]. by rewrite <- accepted_spec.
  - rewrite appendFiles_pending. intros [Hin | [Hin Hsup]]; apply in_or_app.
    + by left.
    + right. apply filter_In_iff. by rewrite accepted_spec.
  - exists (List.filter accepted files). rewrite appendFiles_pending.
    split; [done |]. split; [apply filter_sublist | apply filter_accepted_supported].
  - unfold onFiles. destruct files; [| done].
    rewrite appendFiles_pending. simpl. by rewrite app_nil_r.
  - exact Hinv.
  - intros e req Hin.
    destruct (current_turn e _ req Hin) as (turns & groups & Hgs & ->).
    exists turns, groups. split; [| done].
    clear Hin. revert Hinv Hgs.
    generalize (pendingFiles (run (initial prompt) actions)).
    intros pending Hinv Hgs. induction Hgs as [|f g fs gs Hf Hgs IH]; [constructor |].
    apply Forall_cons in Hinv as [Hsup Hinv]. constructor; [done | by apply IH].
Qed.

(** An installer dropped together with a scan and a report is not kept. *)
Example installer_not_kept :
  pendingFiles (onFiles [scan_png; setup_exe; report_pdf] demo_state)
  = [scan_png; report_pdf].
Proof. reflexivity. Qed.

(** A file of an unsupported type would push nothing at send time. *)
Lemma unsupported_pushes_nothing (e : Env) (f : File) :
  accepted f = false -> pushes e f [].
Proof.
  unfold accepted. rewrite !orb_false_iff. intros [[Hpdf Htext] Himage] w.
  unfold attach. by rewrite Himage, Hpdf, Htext.
Qed.

(** ** The user's turn *)

(** C10. A send that passes the guard first adds the user's turn. Its
    text is the input without the white space at either end when
    something is left of it, and "(sent attachments)" when nothing is
    left and files are pending; in that second case the current turn of
    the request opens with the text for attachments sent without a
    message. *)
Theorem placeholder_message (e : Env) (c : State) :
  something_to_send c ->
  exists userMsg rest pre post,
    messages (store (click_send e c)) = messages c ++ userMsg :: rest /\
    role userMsg = user /\
    input c = pre ++ trim (input c) ++ post /\
    forallb is_space pre = true /\
    forallb is_space post = true /\
    (forall ch, head (trim (input c)) = Some ch -> is_space ch = false) /\
    (forall ch, last (trim (input c)) = Some ch -> is_space ch = false) /\
    (trim (input c) <> [] -> text userMsg = JStr (trim (input c))) /\
    (trim (input c) = [] ->
       pendingFiles c <> [] /\
       text userMsg = JStr (lit "(sent attachments)") /\
       startsWith (lit "User sent attachments without a message.")
         (attachments_only_text c) = true /\
       forall req, In req (requests (click_send e c)) ->
         exists turns rest',
           body_messages req =
             turns ++ [{| msg_role := user_role;
                          msg_content :=
                            text_block (JStr (attachments_only_text c)) :: rest' |}]).
Proof.
  intros Hgo.
  destruct (trim_spec (input c)) as (pre & post & Hinput & Hpre & Hpost & Hhead & Hlast).
  exists (userMsg_at e c 0).
  destruct (sendMessage_settles e c (at_click c) Hgo) as (out & issued & Hrun & _).
  exists [assistantMsg_at e out 2], pre, post.
  assert (Hclick : click_send e c = settled e c (at_click c) out issued)
    by (unfold click_send; by rewrite Hrun).
  split; [by rewrite Hclick, settled_messages |].
  repeat (split; [done |]). split.
  - intros Hsome. apply nonempty_true in Hsome. simpl. by rewrite Hsome.
  - intros Hnone. split; [by destruct Hgo |].
    split; [simpl; by rewrite Hnone |]. split; [reflexivity |].
    intros req Hin.
    destruct (current_turn e c req Hin) as (turns & groups & _ & ->).
    exists turns, (concat groups). unfold opening_blocks. by rewrite Hnone.
Qed.

Lemma placeholder_message_witness :
  let e := demo_env demo_reply in
  let c := appendFiles [notes_txt] (setInput (lit "  ") demo_state) in
  something_to_send c /\
  exists userMsg rest,
    messages (store (click_send e c)) = messages c ++ userMsg :: rest /\
    text userMsg = JStr (lit "(sent attachments)").
Proof.
  intros e c.
  assert (Hgo : something_to_send c) by (right; vm_compute; discriminate).
  split; [exact Hgo |].
  destruct (placeholder_message e c Hgo)
    as (userMsg & rest & _ & _ & Hmsgs & _ & _ & _ & _ & _ & _ & Hempty).
  exists userMsg, rest. split; [exact Hmsgs |].
  apply Hempty. reflexivity.
Defined.

(** An input of "  hi  " is shown as "hi". *)
Example placeholder_trimmed :
  head (List.map text (messages (store (click_send (demo_env demo_reply) demo_state))))
  = Some (JStr (lit "hi")).
Proof. vm_compute. reflexivity. Qed.

(** * Further properties *)

(** ** When a send does something *)




(** X2. A send that passes the guard empties the input, adds exactly
    two turns to the conversation (the user's, then the assistant's),
    and leaves the system prompt, the five behaviour controls and the
    two dialogs as they were. *)
Theorem send_frame (e : Env) (c : State) :
  something_to_send c ->
  input (store (click_send e c)) = [] /\
  (exists userMsg assistantMsg,
     messages (store (click_send e c)) = messages c ++ [userMsg; assistantMsg] /\
     role userMsg = user /\ role assistantMsg = assistant) /\
  systemPrompt (store (click_send e c)) = systemPrompt c /\
  controls_of (store (click_send e c)) = controls_of c /\
  showAbout (store (click_send e c)) = showAbout c /\
  showSettings (store (click_send e c)) = showSettings c /\
  isTouch (store (click_send e c)) = isTouch c.
Proof.
  intros Hgo. unfold click_send.
  destruct (sendMessage_settles e c (at_click c) Hgo) as (out & issued & -> & _).
  cbn [snd]. split; [done |]. split; [| done].
  exists (userMsg_at e c 0), (assistantMsg_at e out 2).
  by rewrite settled_messages.
Qed.

Lemma send_frame_witness :
  something_to_send demo_state /\
  input (store (click_send demo_env_offline demo_state)) = [] /\
  controls_of (store (click_send demo_env_offline demo_state))
  = controls_of demo_state.
Proof.
  assert (Hgo : something_to_send demo_state) by (left; vm_compute; discriminate).
  split; [exact Hgo |].
  destruct (send_frame demo_env_offline demo_state Hgo)
    as (Hinput & _ & _ & Hcontrols & _).
  by split.
Defined.

(** ** What the user reads after a failure *)

Lemma settled_texts (e : Env) (c : State) (out : Outcome) issued :
  List.map text (messages (store (settled e c (at_click c) out issued))) =
  List.map text (messages c) ++
    [text (userMsg_at e c 0); text (assistantMsg_at e out 2)].
Proof. by rewrite settled_messages, map_app. Qed.

(** X3. One rejected file read is enough to call the send off: no
    request is issued, even if every other file could be read, and the
    assistant turn reads the fixed prefix followed by "File read error". *)
Theorem rejected_read_sends_nothing (e : Env) (c : State) :
  something_to_send c ->
  existsb (read_fails e) (pendingFiles c) = true ->
  requests (click_send e c) = [] /\
  exists userText,
    List.map text (messages (store (click_send e c))) =
    List.map text (messages c) ++
      [userText; JStr (failure_prefix ++ lit "File read error")].
Proof.
  intros Hgo Hread. rewrite (rejected_read e c Hgo Hread).
  split; [done |]. eexists. apply settled_texts.
Qed.

Lemma rejected_read_sends_nothing_witness :
  let c := appendFiles [scan_png; notes_txt] demo_state in
  something_to_send c /\
  existsb (read_fails demo_env_unreadable) (pendingFiles c) = true /\
  requests (click_send demo_env_unreadable c) = [].
Proof.
  intros c.
  assert (Hgo : something_to_send c) by (left; vm_compute; discriminate).
  assert (Hread : existsb (read_fails demo_env_unreadable) (pendingFiles c) = true)
    by reflexivity.
  split; [exact Hgo |]. split; [exact Hread |].
  apply (rejected_read_sends_nothing demo_env_unreadable c Hgo Hread).
Defined.

(** X4. After a response with a status outside 2xx whose body can be
    read, the assistant turn reads: the fixed prefix, "API error: ", the
    status in decimal, a space, and the body of the response as text.
    The JSON reading of the body plays no part. *)
Theorem http_error_text (e : Env) (c : State) (req : Request)
    (resp : Response) (textErr : jsstring) :
  requests (click_send e c) = [req] ->
  fetch_outcome e req = inr resp ->
  ok resp = false ->
  body_text resp = inr textErr ->
  exists userText,
    List.map text (messages (store (click_send e c))) =
    List.map text (messages c) ++
      [userText;
       JStr (failure_prefix ++ lit "API error: " ++ of_int (status resp)
             ++ lit " " ++ textErr)].
Proof.
  intros Hreq Hfetch Hok Htext. rewrite (settled_by_exchange e c req Hreq).
  unfold exchange. rewrite Hfetch, Hok, Htext.
  eexists. apply settled_texts.
Qed.

Lemma http_error_text_witness :
  let e := demo_env demo_server_error in
  let req := request_of (build_history demo_state (opening_blocks demo_state)) in
  requests (click_send e demo_state) = [req] /\
  fetch_outcome e req = inr demo_server_error /\
  ok demo_server_error = false /\
  body_text demo_server_error = inr (lit "boom") /\
  exists userText,
    List.map text (messages (store (click_send e demo_state))) =
    List.map text (messages demo_state) ++
      [userText;
       JStr (failure_prefix ++ lit "API error: " ++ of_int 500 ++ lit " " ++ lit "boom")].
Proof.
  intros e req.
  assert (Hreq : requests (click_send e demo_state) = [req]) by reflexivity.
  assert (Hfetch : fetch_outcome e req = inr demo_server_error) by reflexivity.
  assert (Hok : ok demo_server_error = false) by reflexivity.
  assert (Htext : body_text demo_server_error = inr (lit "boom")) by reflexivity.
  repeat (split; [assumption |]).
  apply (http_error_text e demo_state req demo_server_error (lit "boom")
           Hreq Hfetch Hok Htext).
Defined.

Lemma describe_spec (err : Error) :
  (message err <> [] -> describe err = message err) /\
  (message err = [] -> describe err = name err).
Proof.
  unfold describe, toString. destruct (message err), (name err); by split.
Qed.

(** X5. When [fetch] itself rejects (no connection, or the abort at the
    timeout), the assistant turn reads the fixed prefix followed by the
    message of the error, and by the name of the error when its message
    is empty. Nothing of the response is read. *)
Theorem rejected_fetch_text (e : Env) (c : State) (req : Request) (err : Error) :
  requests (click_send e c) = [req] ->
  fetch_outcome e req = inl err ->
  exists userText shown,
    List.map text (messages (store (click_send e c))) =
    List.map text (messages c) ++ [userText; JStr (failure_prefix ++ shown)] /\
    (message err <> [] -> shown = message err) /\
    (message err = [] -> shown = name err).
Proof.
  intros Hreq Hfetch. rewrite (settled_by_exchange e c req Hreq).
  unfold exchange. rewrite Hfetch.
  eexists _, (describe err). split; [apply settled_texts | apply describe_spec].
Qed.

Lemma rejected_fetch_text_witness :
  let req := request_of (build_history demo_state (opening_blocks demo_state)) in
  requests (click_send demo_env_offline demo_state) = [req] /\
  fetch_outcome demo_env_offline req
  = inl {| name := lit "TypeError"; message := lit "Failed to fetch" |} /\
  exists userText,
    List.map text (messages (store (click_send demo_env_offline demo_state))) =
    [userText; JStr (failure_prefix ++ lit "Failed to fetch")].
Proof.
  intros req.
  assert (Hreq : requests (click_send demo_env_offline demo_state) = [req])
    by reflexivity.
  assert (Hfetch : fetch_outcome demo_env_offline req
                   = inl {| name := lit "TypeError"; message := lit "Failed to fetch" |})
    by reflexivity.
  split; [exact Hreq |]. split; [exact Hfetch |].
  destruct (rejected_fetch_text demo_env_offline demo_state req _ Hreq Hfetch)
    as (userText & shown & Htexts & Hmsg & _).
  exists userText. rewrite Htexts, Hmsg; [done | discriminate].
Defined.

(** ** The current turn, attachment by attachment *)

Lemma pushed_segment (e : Env) (files : list File) groups (f : File) p (w : World) :
  Forall2 (pushes e) files groups -> In f files -> pushes e f p ->
  exists before after, concat groups = before ++ p ++ after.
Proof.
  intros Hall. induction Hall as [|f' g files groups Hf' Hall IH];
    intros Hin Hp; simpl in *; [done |].
  destruct Hin as [-> | Hin].
  - exists [], (concat groups). by rewrite (pushes_once e f g p w Hf' Hp).
  - destruct (IH Hin Hp) as (before & after & ->).
    exists (g ++ before), after. by rewrite app_assoc.
Qed.

Lemma pushes_count (e : Env) (f : File) p (w : World) :
  pushes e f p -> length p = block_count f.
Proof.
  intros Hp. specialize (Hp w). revert Hp.
  unfold attach, block_count, readFileAsDataURL, readFileAsText, mbind, M_bind, mret, M_ret.
  destruct (startsWith _ _); [| destruct (streq _ (lit "application/pdf"));
    [| destruct (streq _ (lit "text/plain"))]].
  1, 2: destruct (dataURL_of e f); intros [= <-]; done.
  - destruct (text_of e f); intros [= <-]; done.
  - intros [= <-]. done.
Qed.

(** The blocks of [f] sit side by side in the current turn of every
    request sent while [f] is pending, after the opening block. *)
Lemma pushed_in_turn (e : Env) (f : File) p (c : State) (req : Request) :
  pushes e f p -> In f (pendingFiles c) -> In req (requests (click_send e c)) ->
  exists turns opening before after,
    body_messages req =
      turns ++ [{| msg_role := user_role;
                   msg_content := opening :: before ++ p ++ after |}].
Proof.
  intros Hp Hf Hin.
  destruct (current_turn e c req Hin) as (turns & groups & Hgs & ->).
  destruct (pushed_segment e _ _ f p (at_click c) Hgs Hf Hp) as (before & after & ->).
  destruct (opening_blocks_controls c) as (first & -> & _).
  by exists turns, (text_block (JStr first)), before, after.
Qed.

(** X6. An attachment whose media type starts with image/ and that is
    read contributes two blocks: the image as a data URL, then a text
    that names the file; they sit side by side, in this order, in the
    current turn of the request, after the opening block. *)
Theorem image_attachment_blocks (e : Env) (f : File) (dataUrl : jsstring) :
  startsWith (lit "image/") (file_type f) = true ->
  dataURL_of e f = Some dataUrl ->
  let blocks :=
    [ image_url_block dataUrl;
      text_block (JStr (lit "Attachment: Image " ++ dq ++ file_name f ++ dq ++
                        lit ". If text or tables exist, extract them.")) ] in
  pushes e f blocks /\
  forall c req,
    In f (pendingFiles c) -> In req (requests (click_send e c)) ->
    exists turns opening before after,
      body_messages req =
        turns ++ [{| msg_role := user_role;
                     msg_content := opening :: before ++ blocks ++ after |}].
Proof.
  intros Htype Hread blocks.
  assert (Hpush : pushes e f blocks).
  { intros w. unfold attach, readFileAsDataURL, mbind, M_bind.
    by rewrite Htype, Hread. }
  split; [exact Hpush |]. intros c req. by apply pushed_in_turn.
Qed.

Lemma image_attachment_blocks_witness :
  let e := demo_env demo_reply in
  startsWith (lit "image/") (file_type scan_png) = true /\
  dataURL_of e scan_png = Some (lit "data:;base64,AAAA") /\
  pushes e scan_png
    [ image_url_block (lit "data:;base64,AAAA");
      text_block (JStr (lit "Attachment: Image " ++ dq ++ lit "scan.png" ++ dq ++
                        lit ". If text or tables exist, extract them.")) ].
Proof.
  intros e.
  assert (Htype : startsWith (lit "image/") (file_type scan_png) = true) by reflexivity.
  assert (Hread : dataURL_of e scan_png = Some (lit "data:;base64,AAAA")) by reflexivity.
  split; [exact Htype |]. split; [exact Hread |].
  apply (image_attachment_blocks e scan_png _ Htype Hread).
Defined.

(** X7. An application/pdf attachment that is read contributes two
    blocks: the file, under its name and as a data URL, then a text that
    names the file; they sit side by side, in this order, in the
    current turn of the request, after the opening block. *)
Theorem pdf_attachment_blocks (e : Env) (f : File) (dataUrl : jsstring) :
  file_type f = lit "application/pdf" ->
  dataURL_of e f = Some dataUrl ->
  let blocks :=
    [ file_block (file_name f) dataUrl;
      text_block (JStr (lit "Attachment: PDF " ++ dq ++ file_name f ++ dq ++
                        lit ". Read all pages. Extract tables and key sections.")) ] in
  pushes e f blocks /\
  forall c req,
    In f (pendingFiles c) -> In req (requests (click_send e c)) ->
    exists turns opening before after,
      body_messages req =
        turns ++ [{| msg_role := user_role;
                     msg_content := opening :: before ++ blocks ++ after |}].
Proof.
  intros Htype Hread blocks.
  assert (Hpush : pushes e f blocks).
  { intros w. unfold attach, readFileAsDataURL, mbind, M_bind. rewrite Htype.
    replace (startsWith (lit "image/") (lit "application/pdf")) with false by reflexivity.
    replace (streq (lit "application/pdf") (lit "application/pdf")) with true by reflexivity.
    by rewrite Hread. }
  split; [exact Hpush |]. intros c req. by apply pushed_in_turn.
Qed.

Lemma pdf_attachment_blocks_witness :
  let e := demo_env demo_reply in
  file_type report_pdf = lit "application/pdf" /\
  dataURL_of e report_pdf = Some (lit "data:;base64,AAAA") /\
  pushes e report_pdf
    [ file_block (lit "report.pdf") (lit "data:;base64,AAAA");
      text_block (JStr (lit "Attachment: PDF " ++ dq ++ lit "report.pdf" ++ dq ++
                        lit ". Read all pages. Extract tables and key sections.")) ].
Proof.
  intros e.
  assert (Htype : file_type report_pdf = lit "application/pdf") by reflexivity.
  assert (Hread : dataURL_of e report_pdf = Some (lit "data:;base64,AAAA")) by reflexivity.
  split; [exact Htype |]. split; [exact Hread |].
  apply (pdf_attachment_blocks e report_pdf _ Htype Hread).
Defined.

Lemma concat_count (e : Env) (files : list File) groups (w : World) :
  Forall2 (pushes e) files groups ->
  length (concat groups) = list_sum (List.map block_count files).
Proof.
  intros Hall. induction Hall as [|f g files groups Hf Hall IH]; simpl; [done |].
  by rewrite length_app, IH, (pushes_count e f g w Hf).
Qed.

(** X8. The current turn of a request holds one opening text block and
    then, in the order of the pending list, what each file pushed: two
    blocks for an image or a PDF, one for a text file. No file is left
    out, none is sent twice, and nothing else is in the turn. *)
Theorem current_turn_layout (e : Env) (c : State) (req : Request) :
  In req (requests (click_send e c)) ->
  exists turns opening groups,
    body_messages req =
      turns ++ [{| msg_role := user_role;
                   msg_content := opening :: concat groups |}] /\
    Forall2 (pushes e) (pendingFiles c) groups /\
    Forall2 (fun f pushed => length pushed = block_count f) (pendingFiles c) groups /\
    length (opening :: concat groups)
    = S (list_sum (List.map block_count (pendingFiles c))).
Proof.
  intros Hin.
  destruct (current_turn e c req Hin) as (turns & groups & Hgs & ->).
  destruct (opening_blocks_controls c) as (first & -> & _).
  exists turns, (text_block (JStr first)), groups.
  split; [done |]. split; [done |]. split.
  - eapply Forall2_impl; [exact Hgs |].
    intros f p Hp. apply (pushes_count e f p (at_click c) Hp).
  - simpl. by rewrite (concat_count e _ _ (at_click c) Hgs).
Qed.

Lemma current_turn_layout_witness :
  let e := demo_env demo_reply in
  let c := appendFiles [scan_png; notes_txt; report_pdf] demo_state in
  exists req turns blocks,
    In req (requests (click_send e c)) /\
    body_messages req =
      turns ++ [{| msg_role := user_role; msg_content := blocks |}] /\
    length blocks = 6%nat.
Proof.
  intros e c.
  set (groups := [ [image_url_block (lit "data:;base64,AAAA");
                    text_block (JStr (image_note scan_png))];
                   [text_block (JStr (text_file_block notes_txt (lit "abc")))];
                   [file_block (lit "report.pdf") (lit "data:;base64,AAAA");
                    text_block (JStr (pdf_note report_pdf))] ]).
  set (req := request_of (build_history c (opening_blocks c ++ concat groups))).
  assert (Hin : In req (requests (click_send e c))).
  { left. vm_compute. reflexivity. }
  destruct (current_turn_layout e c req Hin)
    as (turns & opening & gs & Hbody & _ & _ & Hlen).
  exists req, turns, (opening :: concat gs).
  split; [exact Hin |]. split; [exact Hbody |]. exact Hlen.
Defined.

(** ** The conversation over a session *)

Lemma exchanges_app (ms added : list ChatMessage) :
  exchanges ms -> exchanges added -> exchanges (ms ++ added).
Proof.
  intros Hms Hadded.
  assert (Hgen : forall n l, (length l <= n)%nat -> exchanges l -> exchanges (l ++ added)).
  { induction n as [|n IH]; intros l Hlen Hl.
    - destruct l; [done | simpl in Hlen; lia].
    - destruct l as [|u [|a rest]]; [done | done |].
      destruct Hl as (Hu & Ha & Hrest). simpl. split; [done |]. split; [done |].
      apply IH; [simpl in Hlen; lia | done]. }
  by apply (Hgen (length ms)).
Qed.

Lemma step_messages (s : State) (a : Action) :
  a = Clear_chat \/
  exists added, messages (step s a) = messages s ++ added /\ exchanges added.
Proof.
  destruct a; try by (right; exists []; cbn [step]; simpl; rewrite app_nil_r).
  - right. unfold step, onFiles. destruct files; exists []; simpl; by rewrite app_nil_r.
  - right. cbn [step]. destruct (guard_dec s) as [Hgo | [Ht Hp]].
    + unfold click_send.
      destruct (sendMessage_settles e s (at_click s) Hgo) as (out & issued & -> & _).
      eexists. split; [apply settled_messages | done].
    + exists []. unfold click_send.
      rewrite (sendMessage_noop e s _ Ht Hp). simpl. by rewrite app_nil_r.
  - by left.
Qed.

Lemma step_isSending (s : State) (a : Action) :
  isSending s = false -> isSending (step s a) = false.
Proof.
  intros Hs. destruct a; try done.
  - unfold step, onFiles. by destruct files.
  - cbn [step]. destruct (guard_dec s) as [Hgo | [Ht Hp]]; unfold click_send.
    + by destruct (sendMessage_settles e s (at_click s) Hgo) as (out & issued & -> & _).
    + by rewrite (sendMessage_noop e s _ Ht Hp).
Qed.

(** X9. When each send settles before the next action, the
    conversation is at every moment a sequence of exchanges, a user turn
    followed by an assistant turn, and the is-sending flag is down:
    whatever the user types, attaches, removes, sends, clears or sets,
    from mount on. *)
Theorem session_invariant (prompt : jsstring) (actions : list Action) :
  exchanges (messages (run (initial prompt) actions)) /\
  Nat.even (length (messages (run (initial prompt) actions))) = true /\
  isSending (run (initial prompt) actions) = false.
Proof.
  assert (Hrun : forall s,
    exchanges (messages s) /\ isSending s = false ->
    exchanges (messages (run s actions)) /\ isSending (run s actions) = false).
  { induction actions as [|a actions IH]; intros s [Hm Hs]; [done |].
    apply IH. split; [| by apply step_isSending].
    destruct (step_messages s a) as [-> | (added & -> & Hadded)]; [done |].
    by apply exchanges_app. }
  destruct (Hrun (initial prompt)) as [Hm Hs]; [done |].
  split; [done |]. split; [| done].
  revert Hm. generalize (messages (run (initial prompt) actions)).
  assert (Hgen : forall n (l : list ChatMessage),
    (length l <= n)%nat -> exchanges l -> Nat.even (length l) = true).
  { induction n as [|n IH]; intros l Hlen Hl.
    - destruct l; [done | simpl in Hlen; lia].
    - destruct l as [|u [|a rest]]; [done | done |].
      destruct Hl as (_ & _ & Hrest). simpl. apply IH; [simpl in Hlen; lia | done]. }
  intros l. by apply (Hgen (length l)).
Qed.

(** X10. Nothing but Clear removes or rewrites a message: over any
    sequence of actions without a Clear, the conversation at the start
    is kept as it is, and only whole exchanges are added after it. *)
Theorem messages_only_grow (s : State) (actions : list Action) :
  ~ In Clear_chat actions ->
  exists added,
    messages (run s actions) = messages s ++ added /\ exchanges added.
Proof.
  revert s. induction actions as [|a actions IH]; intros s Hclear.
  - exists []. simpl. by rewrite app_nil_r.
  - destruct (step_messages s a) as [-> | (added & Hstep & Hadded)].
    + destruct Hclear. by left.
    + destruct (IH (step s a)) as (more & Hrun & Hmore).
      { intros Hin. apply Hclear. by right. }
      exists (added ++ more). simpl. rewrite Hrun, Hstep.
      split; [by rewrite app_assoc | by apply exchanges_app].
Qed.

Lemma messages_only_grow_witness :
  let actions := [ Add_files [notes_txt]; Send demo_env_offline;
                   Type_input (lit "again"); Pick_tone formal;
                   Send (demo_env demo_reply) ] in
  ~ In Clear_chat actions /\
  exists added,
    messages (run demo_long_state actions) = messages demo_long_state ++ added /\
    exchanges added.
Proof.
  intros actions.
  assert (Hclear : ~ In Clear_chat actions).
  { simpl. intros [H | [H | [H | [H | [H | []]]]]]; discriminate H. }
  split; [exact Hclear |].
  apply (messages_only_grow demo_long_state actions Hclear).
Defined.

(** ** The pending list as the user edits it *)

Lemma filter_swap {A} (p q : A -> bool) (l : list A) :
  List.filter p (List.filter q l) = List.filter q (List.filter p l).
Proof.
  induction l as [|x l IH]; simpl; [done |].
  destruct (q x) eqn:Hq, (p x) eqn:Hp; simpl; rewrite ?Hq, ?Hp, IH; done.
Qed.

Lemma filter_all {A} (p : A -> bool) (l : list A) :
  (forall x, In x l -> p x = true) -> List.filter p l = l.
Proof.
  induction l as [|x l IH]; simpl; intros Hall; [done |].
  rewrite Hall by (by left). f_equal. apply IH. intros y Hy. apply Hall. by right.
Qed.

(** X11. Adding files in two goes is the same as adding them in one, in
    that order; adding an empty selection changes nothing, with or
    without the emptiness test of the event handlers; and a supported
    file added twice is pending twice. *)
Theorem appendFiles_compose (files more : list File) (s : State) :
  appendFiles more (appendFiles files s) = appendFiles (files ++ more) s /\
  appendFiles [] s = s /\
  onFiles files s = appendFiles files s /\
  (forall f, accepted f = true ->
     pendingFiles (appendFiles [f] (appendFiles [f] s)) = pendingFiles s ++ [f; f]).
Proof.
  assert (Hnil : appendFiles [] s = s).
  { destruct s. unfold appendFiles, setPendingFiles. simpl. by rewrite app_nil_r. }
  repeat split.
  - destruct s. unfold appendFiles, setPendingFiles. simpl.
    by rewrite List.filter_app, app_assoc.
  - exact Hnil.
  - unfold onFiles. by destruct files.
  - intros f Hf. rewrite !appendFiles_pending. simpl. rewrite Hf.
    by rewrite <- app_assoc.
Qed.

(** X12. Removing a name twice is the same as removing it once; two
    removals can be done in either order; removing a name that no
    pending file has changes nothing; and removing after adding is the
    same as adding, after the removal, the new files of another name. *)
Theorem removePendingFile_algebra (n m : jsstring) (files : list File) (s : State) :
  removePendingFile n (removePendingFile n s) = removePendingFile n s /\
  removePendingFile n (removePendingFile m s)
  = removePendingFile m (removePendingFile n s) /\
  ((forall f, In f (pendingFiles s) -> file_name f <> n) ->
     removePendingFile n s = s) /\
  removePendingFile n (appendFiles files s)
  = appendFiles (List.filter (fun f => negb (streq (file_name f) n)) files)
      (removePendingFile n s).
Proof.
  destruct s. unfold removePendingFile, appendFiles, setPendingFiles. simpl.
  repeat split.
  - f_equal. by apply filter_filter_comm.
  - f_equal. apply filter_swap.
  - intros Hnone. f_equal. apply filter_all. intros f Hf.
    apply negb_true_iff, streq_false. by apply Hnone.
  - f_equal. rewrite List.filter_app. f_equal. apply filter_swap.
Qed.

(** ** One send after another *)

(** X13. The first request after a Clear carries no earlier turn: its
    messages are the system block and the current turn, whatever was
    said before. *)
Theorem clear_then_send_payload (e : Env) (s : State) (req : Request) :
  In req (requests (click_send e (clearChat s))) ->
  exists blocks,
    body_messages req =
      [ {| msg_role := system_role;
           msg_content := [text_block (JStr (systemPrompt s))] |};
        {| msg_role := user_role; msg_content := blocks |} ].
Proof.
  intros Hin.
  destruct (issued_request e _ req Hin) as (_ & _ & groups & _ & -> & _).
  eexists. reflexivity.
Qed.

Lemma clear_then_send_payload_witness :
  let e := demo_env demo_reply in
  let req := request_of (build_history (clearChat demo_long_state)
                           (opening_blocks demo_long_state)) in
  In req (requests (click_send e (clearChat demo_long_state))) /\
  length (body_messages req) = 2%nat.
Proof.
  intros e req.
  assert (Hin : In req (requests (click_send e (clearChat demo_long_state)))).
  { left. vm_compute. reflexivity. }
  split; [exact Hin |].
  destruct (clear_then_send_payload e demo_long_state req Hin) as (blocks & ->).
  reflexivity.
Defined.

(** X14. What one send adds to the conversation is what the next
    request ends its prior turns with: the user's turn under the user
    role, then the assistant's turn (the reply or the failure message)
    under the assistant role, right before the new current turn. *)
Theorem exchange_becomes_prior_turns (e e' : Env) (c : State) (v : jsstring)
    (req' : Request) :
  something_to_send c ->
  In req' (requests (click_send e' (setInput v (store (click_send e c))))) ->
  exists userMsg assistantMsg turns blocks,
    messages (store (click_send e c)) = messages c ++ [userMsg; assistantMsg] /\
    body_messages req' =
      turns ++
      [ {| msg_role := user_role; msg_content := [text_block (text userMsg)] |};
        {| msg_role := assistant_role;
           msg_content := [text_block (text assistantMsg)] |};
        {| msg_role := user_role; msg_content := blocks |} ].
Proof.
  intros Hgo Hin.
  destruct (issued_request e' _ req' Hin) as (_ & _ & groups & _ & -> & _).
  clear Hin. unfold click_send.
  destruct (sendMessage_settles e c (at_click c) Hgo) as (out & issued & -> & _).
  cbn [snd].
  exists (userMsg_at e c 0), (assistantMsg_at e out 2).
  unfold request_of. cbn [body_messages]. rewrite build_history_shape.
  change (messages (setInput v ?s)) with (messages s).
  rewrite settled_messages. cbn [store at_click draws].
  rewrite (slice_back _ 12) by lia.
  rewrite drop_app_le by (rewrite length_app; simpl; lia).
  rewrite map_app. cbn [List.map].
  eexists (_ :: _), _. split; [reflexivity |].
  rewrite <- app_assoc. reflexivity.
Qed.

Lemma exchange_becomes_prior_turns_witness :
  let e := demo_env demo_reply in
  let next := setInput (lit "more") (store (click_send e demo_state)) in
  let req' := request_of (build_history next (opening_blocks next)) in
  something_to_send demo_state /\
  In req' (requests (click_send e next)) /\
  exists userMsg assistantMsg turns blocks,
    messages (store (click_send e demo_state))
    = messages demo_state ++ [userMsg; assistantMsg] /\
    body_messages req' =
      turns ++
      [ {| msg_role := user_role; msg_content := [text_block (text userMsg)] |};
        {| msg_role := assistant_role;
           msg_content := [text_block (text assistantMsg)] |};
        {| msg_role := user_role; msg_content := blocks |} ].
Proof.
  intros e next req'.
  assert (Hgo : something_to_send demo_state) by (left; vm_compute; discriminate).
  assert (Hin : In req' (requests (click_send e next))).
  { left. vm_compute. reflexivity. }
  split; [exact Hgo |]. split; [exact Hin |].
  apply (exchange_becomes_prior_turns e e demo_state (lit "more") req' Hgo Hin).
Defined.

(** ** The controls, as sent and as shown *)

(** Take the next control off both sides of [H], or close the goal
    when the two sides differ on it. *)
Ltac next_control x y H :=
  destruct x, y; vm_compute in H; try discriminate H; injection H as H.

Ltac last_control x y H :=
  destruct x, y; vm_compute in H; try discriminate H; reflexivity.

(** X15. The directive line sent to the model determines the five
    behaviour controls: two states give the same line exactly when they
    agree on tone, depth, citation mode and the two toggles. *)
Theorem controlDirectives_determines (c c' : State) :
  controlDirectives c = controlDirectives c' <-> controls_of c = controls_of c'.
Proof.
  destruct c as [? ? ? ? ? ? ? t d m x i ?], c' as [? ? ? ? ? ? ? t' d' m' x' i' ?].
  unfold controlDirectives, controls_of, join.
  cbn [tone depth citationMode extractTables describeImages]. split.
  - intros H.
    next_control t t' H.
    all: next_control d d' H.
    all: next_control m m' H.
    all: next_control x x' H.
    all: last_control i i' H.
  - intros [= -> -> -> -> ->]. reflexivity.
Qed.

(** X16. The line shown under the composer determines the five
    behaviour controls just as well: no two settings are displayed
    alike. *)
Theorem summarizeControls_determines (c c' : State) :
  summarizeControls c = summarizeControls c' <-> controls_of c = controls_of c'.
Proof.
  destruct c as [? ? ? ? ? ? ? t d m x i ?], c' as [? ? ? ? ? ? ? t' d' m' x' i' ?].
  unfold summarizeControls, controls_of.
  cbn [tone depth citationMode extractTables describeImages]. split.
  - intros H.
    next_control t t' H.
    all: next_control d d' H.
    all: next_control m m' H.
    all: next_control x x' H.
    all: last_control i i' H.
  - intros [= -> -> -> -> ->]. reflexivity.
Qed.

(** The default controls are shown as in the source. *)
Example summarizeControls_default :
  summarizeControls demo_state =
  lit "Neutral tone" ++ bullet ++ lit "Balanced depth" ++ bullet ++
  lit "Citations: auto" ++ bullet ++ lit "Tables: on" ++ bullet ++ lit "Images: on".
Proof. reflexivity. Qed.

(** ** White space around the input *)

Lemma groups_unique (e : Env) (files : list File) groups groups' (w : World) :
  Forall2 (pushes e) files groups -> Forall2 (pushes e) files groups' ->
  groups = groups'.
Proof.
  intros Hg. revert groups'.
  induction Hg as [|f g files groups Hf Hg IH]; intros groups' Hg';
    inversion Hg' as [|f' g' files' gs' Hf' Hgs']; subst; [done |].
  f_equal; [by apply (pushes_once e f g g' w) | by apply IH].
Qed.

(** How a send settles does not depend on the live cells it starts
    from: the outcome and the request are fixed by the cells of the
    render and by the outside world. *)
Lemma sendMessage_outcome (e : Env) (c : State) :
  something_to_send c ->
  exists out issued,
    forall w, sendMessage c e w = (inr tt, settled e c w out issued).
Proof.
  intros Hgo.
  destruct (sendMessage_run e c (at_click c) Hgo)
    as [[Hread _] | [Hread (groups & Hgs & _)]].
  - exists (inl file_read_error), []. intros w.
    destruct (sendMessage_run e c w Hgo) as [[_ Hrun] | [Hread' _]];
      [done | congruence].
  - eexists _, [_]. intros w.
    destruct (sendMessage_run e c w Hgo)
      as [[Hread' _] | [_ (groups' & Hgs' & Hrun)]]; [congruence |].
    rewrite Hrun, (groups_unique e _ _ _ w Hgs' Hgs). reflexivity.
Qed.

Lemma sendMessage_trimmed (e : Env) (c : State) (v v' : jsstring) (w : World) :
  trim v = trim v' ->
  sendMessage (setInput v c) e w = sendMessage (setInput v' c) e w.
Proof.
  intros Htrim. unfold sendMessage, send_body, request_text.
  cbn [input setInput pendingFiles]. by rewrite Htrim.
Qed.

(** X17. White space at the ends of the input never leaves the text
    area: two inputs that agree once trimmed lead to the same requests
    and the same conversation, and to the very same cells when the send
    passes the guard. *)
Theorem surrounding_space_not_sent (e : Env) (c : State) (v v' : jsstring) :
  trim v = trim v' ->
  requests (click_send e (setInput v c)) = requests (click_send e (setInput v' c)) /\
  messages (store (click_send e (setInput v c)))
  = messages (store (click_send e (setInput v' c))) /\
  (something_to_send (setInput v c) ->
   store (click_send e (setInput v c)) = store (click_send e (setInput v' c))).
Proof.
  intros Htrim. unfold click_send.
  rewrite <- (sendMessage_trimmed e c v v' _ Htrim).
  destruct (guard_dec (setInput v c)) as [Hgo | [Ht Hp]].
  - destruct (sendMessage_outcome e _ Hgo) as (out & issued & Hrun).
    rewrite !Hrun. done.
  - rewrite !(sendMessage_noop e _ _ Ht Hp). split; [done |]. split; [done |].
    intros [Hgo | Hgo]; done.
Qed.

Lemma surrounding_space_not_sent_witness :
  let e := demo_env demo_reply in
  trim (lit "  hi  ") = trim (lit "hi") /\
  requests (click_send e (setInput (lit "  hi  ") demo_state))
  = requests (click_send e (setInput (lit "hi") demo_state)).
Proof.
  intros e.
  assert (Htrim : trim (lit "  hi  ") = trim (lit "hi")) by reflexivity.
  split; [exact Htrim |].
  apply (surrounding_space_not_sent e demo_state (lit "  hi  ") (lit "hi") Htrim).
Defined.

(** ** Export *)

Lemma lit_inj (s s' : string) : lit s = lit s' -> s = s'.
Proof.
  revert s'. induction s as [|a s IH]; intros [|a' s'] H; try done.
  injection H as Ha Hs. f_equal; [| by apply IH].
  by rewrite <- (ascii_N_embedding a), <- (ascii_N_embedding a'), Ha.
Qed.

Lemma of_int_inj (n n' : Z) : of_int n = of_int n' -> n = n'.
Proof.
  intros H. apply lit_inj in H. apply DecimalZ.to_int_inj.
  assert (Hnz : forall z, Z.to_int z <> Decimal.Pos Decimal.Nil /\
                          Z.to_int z <> Decimal.Neg Decimal.Nil).
  { intros z. split; intros Hz;
      pose proof (f_equal Z.of_int Hz) as Hzero;
      rewrite DecimalZ.of_to in Hzero; simpl in Hzero;
      rewrite Hzero in Hz; discriminate Hz. }
  assert (Hsome : Some (Z.to_int n) = Some (Z.to_int n')).
  { rewrite <- (NilZero.isi (Z.to_int n)) by apply Hnz.
    rewrite <- (NilZero.isi (Z.to_int n')) by apply Hnz.
    by rewrite H. }
  by injection Hsome.
Qed.

(** X18. An export never fails, issues no request and changes no cell;
    it hands over the whole conversation of the render, also when it is
    empty; and two exports get the same file name only when the clock
    read the same millisecond for both. *)
Theorem exportChat_spec (e e' : Env) (c c' : State) (w w' : World) :
  exists d d',
    fst (exportChat c e w) = inr d /\
    fst (exportChat c' e' w') = inr d' /\
    exported d = messages c /\
    store (snd (exportChat c e w)) = store w /\
    requests (snd (exportChat c e w)) = requests w /\
    (download d = download d' <->
     now_draw e (draws w) = now_draw e' (draws w')).
Proof.
  eexists _, _. repeat split.
  - cbn [download]. intros H.
    apply app_inv_head, app_inv_tail in H. by apply of_int_inj.
  - cbn [download]. by intros ->.
Qed.

(** The name of an export made at 1700000000000 ms. *)
Example exportChat_name :
  (fun r => match fst r with
            | inr d => download d
            | inl _ => []
            end)
    (exportChat demo_state (demo_env demo_reply) (at_click demo_state))
  = lit "elroy-chat-1700000000000.json".
Proof. vm_compute. reflexivity. Qed.

(** ** A send and the render it belongs to *)

(** X19. A send reads the cells of the render in which Send was
    clicked and writes to the live cells. What it requests (at most one
    request, built from the conversation, prompt and controls of the
    render) and the two texts it adds are fixed by the render and the
    outside world; the two turns are appended to whatever the live
    conversation is by then, and the live settings are not touched. *)
Theorem send_reads_render_writes_live (e : Env) (c : State) :
  something_to_send c ->
  exists issued userText assistantText,
    (length issued <= 1)%nat /\
    (forall req, In req issued ->
       exists blocks, body_messages req = build_history c blocks) /\
    forall w,
      requests (snd (sendMessage c e w)) = requests w ++ issued /\
      List.map text (messages (store (snd (sendMessage c e w)))) =
      List.map text (messages (store w)) ++ [userText; assistantText] /\
      systemPrompt (store (snd (sendMessage c e w))) = systemPrompt (store w) /\
      controls_of (store (snd (sendMessage c e w))) = controls_of (store w).
Proof.
  intros Hgo.
  assert (Hissued : exists out issued,
    (length issued <= 1)%nat /\
    (forall req, In req issued ->
       exists blocks, body_messages req = build_history c blocks) /\
    forall w, sendMessage c e w = (inr tt, settled e c w out issued)).
  { destruct (sendMessage_outcome e c Hgo) as (out & issued & Hrun).
    exists out, issued. split; [| split; [| done]].
    - destruct (sendMessage_settles e c (at_click c) Hgo)
        as (out' & issued' & Hrun' & Hlen).
      rewrite Hrun in Hrun'.
      apply (f_equal (fun r => requests (snd r))) in Hrun'. simpl in Hrun'.
      by subst issued'.
    - intros req Hin.
      assert (Hlog : In req (requests (click_send e c))).
      { unfold click_send. by rewrite Hrun. }
      destruct (issued_request e c req Hlog) as (_ & _ & groups & _ & -> & _).
      by eexists. }
  destruct Hissued as (out & issued & Hlen & Hbuilt & Hrun).
  exists issued, (text (userMsg_at e c 0)),
    (match out with
     | inl err => JStr (failure_prefix ++ describe err)
     | inr data => reply_text data
     end).
  split; [done |]. split; [done |]. intros w. rewrite Hrun. cbn [snd].
  split; [done |]. split; [| done].
  by rewrite settled_messages, map_app.
Qed.

Lemma send_reads_render_writes_live_witness :
  let e := demo_env demo_reply in
  something_to_send demo_state /\
  exists issued,
    (length issued <= 1)%nat /\
    requests (snd (sendMessage demo_state e (at_click demo_long_state))) = issued.
Proof.
  intros e.
  assert (Hgo : something_to_send demo_state) by (left; vm_compute; discriminate).
  split; [exact Hgo |].
  destruct (send_reads_render_writes_live e demo_state Hgo)
    as (issued & userText & assistantText & Hlen & _ & Hlive).
  exists issued. split; [exact Hlen |].
  by destruct (Hlive (at_click demo_long_state)) as (-> & _).
Defined.
